(** * puppeteer-mcp-server: the session / tool-dispatch core

    A shallow embedding of the two transport variants of the server
    (the stdio server and [src/http-server.ts]) and the properties of
    their shared dispatcher.

    Modelling conventions.
    - A JavaScript value that reaches the server as a tool argument is a
      [JsValue]; numbers are finite (they come from JSON) and are kept as
      rationals, which is exact for every comparison the code makes.
    - [this.browser] and [this.page] are nullable references: [option] of a
      handle.  A handle stays a handle after the engine has closed the object
      behind it.
    - An [async] method is a computation in the monad [M]: it threads the
      server fields, the state of the outside world and the list of engine
      calls made so far, and completes normally or by throwing.  One request
      runs at a time.
    - Puppeteer, chrome-aws-lambda, the URL parser, [JSON.stringify] and the
      base64 encoder are external: they are the members of the class
      [Platform], and every statement holds for every instance of it.  *)

From Stdlib Require Import String List Bool QArith Lia.
Import ListNotations.
Close Scope Q_scope.
Open Scope string_scope.


(** ** JavaScript values *)

#[local] Unset Elimination Schemes.
Inductive JsValue : Type :=
| JUndefined
| JNull
| JBool (b : bool)
| JNumber (q : Q)
| JString (s : string)
| JArray (elems : list JsValue)
| JObject (props : list (string * JsValue)).
#[local] Set Elimination Schemes.

(** [ToBoolean]: what [if (v)], [v ? a : b], [!v] and [v || d] test. *)
Definition truthy (v : JsValue) : bool :=
  match v with
  | JUndefined | JNull => false
  | JBool b => b
  | JNumber q => negb (Qeq_bool q 0)
  | JString s => negb (String.eqb s "")
  | JArray _ | JObject _ => true
  end.

(** [a ?? d] *)
Definition nullish_coalesce (a d : JsValue) : JsValue :=
  match a with
  | JUndefined | JNull => d
  | _ => a
  end.

(** [a || d] *)
Definition logical_or (a d : JsValue) : JsValue :=
  if truthy a then a else d.

(** The own property [k] of an object literal; [undefined] when absent. *)
Fixpoint own_prop (k : string) (props : list (string * JsValue)) : JsValue :=
  match props with
  | [] => JUndefined
  | (k', v) :: rest => if String.eqb k k' then v else own_prop k rest
  end.

(** ** Thrown values *)

Inductive ZodIssueCode :=
| invalid_type | invalid_string | invalid_enum_value | too_small | too_big.

Record ZodIssue := {
  issue_code : ZodIssueCode;
  issue_path : list string;
  issue_custom : option string   (* the message given in the schema, if any *)
}.

Inductive Thrown :=
| ZodError (issues : list ZodIssue)    (* thrown by [Schema.parse] *)
| Error (message : string)             (* [new Error(message)] of the server *)
| TypeError (message : string)         (* property read on undefined or null *)
| EngineError (message : string)       (* an [Error] raised by the engine *)
| ThrownValue (rendering : string).    (* a non-[Error] value; its [String(v)] *)

Inductive Completion (A : Type) :=
| Normal (a : A)
| Throw (t : Thrown).
Arguments Normal {A} a.
Arguments Throw {A} t.

(** [v.k] for the keys the server reads ([headless], [viewport], [width],
    [height]); none of them is a property of a primitive or of an array. *)
Definition get_prop (v : JsValue) (k : string) : Completion JsValue :=
  match v with
  | JUndefined =>
      Throw (TypeError ("Cannot read properties of undefined (reading '" ++ k ++ "')"))
  | JNull =>
      Throw (TypeError ("Cannot read properties of null (reading '" ++ k ++ "')"))
  | JObject props => Normal (own_prop k props)
  | _ => Normal JUndefined
  end.

(** ** The zod schemas *)

Module Zod.

Definition Result (A : Type) : Type := (list ZodIssue + A)%type.
Definition Parser (A : Type) : Type := list string -> JsValue -> Result A.

Definition issue (c : ZodIssueCode) (path : list string) : ZodIssue :=
  {| issue_code := c; issue_path := path; issue_custom := None |}.

Definition issues_of {A} (r : Result A) : list ZodIssue :=
  match r with inl errs => errs | inr _ => [] end.

Definition accepted {A} (r : Result A) : bool :=
  match r with inl _ => false | inr _ => true end.

(** [z.string()] *)
Definition string : Parser String.string := fun path v =>
  match v with
  | JString s => inr s
  | _ => inl [issue invalid_type path]
  end.

(** [z.string().url(msg)]: the check is [new URL(s)] not throwing. *)
Definition string_url (valid_URL : String.string -> bool) (msg : String.string)
  : Parser String.string := fun path v =>
  match v with
  | JString s =>
      if valid_URL s then inr s
      else inl [{| issue_code := invalid_string; issue_path := path;
                   issue_custom := Some msg |}]
  | _ => inl [issue invalid_type path]
  end.

Fixpoint enum_lookup {A} (s : String.string) (table : list (String.string * A))
  : option A :=
  match table with
  | [] => None
  | (k, a) :: rest => if String.eqb s k then Some a else enum_lookup s rest
  end.

(** [z.enum([...])] *)
Definition enum {A} (table : list (String.string * A)) : Parser A := fun path v =>
  match v with
  | JString s =>
      match enum_lookup s table with
      | Some a => inr a
      | None => inl [issue invalid_enum_value path]
      end
  | _ => inl [issue invalid_type path]
  end.

(** [z.boolean()] *)
Definition boolean : Parser bool := fun path v =>
  match v with
  | JBool b => inr b
  | _ => inl [issue invalid_type path]
  end.

(** [z.number().min(lo).max(hi)] *)
Definition number_min_max (lo hi : Q) : Parser Q := fun path v =>
  match v with
  | JNumber q =>
      let small := if Qle_bool lo q then [] else [issue too_small path] in
      let big := if Qle_bool q hi then [] else [issue too_big path] in
      match (small ++ big)%list with
      | [] => inr q
      | errs => inl errs
      end
  | _ => inl [issue invalid_type path]
  end.

(** [inner.optional()] *)
Definition optional {A} (inner : Parser A) : Parser (option A) := fun path v =>
  match v with
  | JUndefined => inr None
  | _ => match inner path v with
         | inl errs => inl errs
         | inr a => inr (Some a)
         end
  end.

(** [inner.optional().default(d)]: an absent field is replaced by [d]
    before the optional wrapper sees it, so the result is never absent. *)
Definition optional_default {A} (inner : Parser A) (d : A) : Parser A := fun path v =>
  match v with
  | JUndefined => inr d
  | _ => inner path v
  end.

(** The field [k] of [z.object({...})], read from the input object. *)
Definition field {A} (k : String.string) (p : Parser A)
           (props : list (String.string * JsValue)) : Result A :=
  p [k] (own_prop k props).

End Zod.

Inductive WaitUntil := load | domcontentloaded | networkidle0 | networkidle2.
Inductive Format := png | jpeg | webp.

Definition WaitUntil_values : list (string * WaitUntil) :=
  [("load", load); ("domcontentloaded", domcontentloaded);
   ("networkidle0", networkidle0); ("networkidle2", networkidle2)].

Definition Format_values : list (string * Format) :=
  [("png", png); ("jpeg", jpeg); ("webp", webp)].

Definition Format_to_string (f : Format) : string :=
  match f with png => "png" | jpeg => "jpeg" | webp => "webp" end.

Record NavigateArgs := { nav_url : string; nav_waitUntil : WaitUntil }.
Record ScreenshotArgs :=
  { shot_fullPage : bool; shot_format : Format; shot_quality : option Q }.
Record GetTextArgs := { text_selector : option string }.
Record ClickArgs := { click_selector : string }.
Record TypeArgs := { type_selector : string; type_text : string }.
Record EvaluateArgs := { eval_script : string }.

Section Schemas.

(** [new URL(s)] succeeds. *)
Variable valid_URL : string -> bool.

Definition NavigateSchema (args : JsValue) : Zod.Result NavigateArgs :=
  match args with
  | JObject props =>
      let url := Zod.field "url" (Zod.string_url valid_URL "Must be a valid URL") props in
      let waitUntil :=
        Zod.field "waitUntil" (Zod.optional_default (Zod.enum WaitUntil_values) load) props in
      match url, waitUntil with
      | inr u, inr w => inr {| nav_url := u; nav_waitUntil := w |}
      | _, _ => inl (Zod.issues_of url ++ Zod.issues_of waitUntil)%list
      end
  | _ => inl [Zod.issue invalid_type []]
  end.

Definition ScreenshotSchema (args : JsValue) : Zod.Result ScreenshotArgs :=
  match args with
  | JObject props =>
      let fullPage := Zod.field "fullPage" (Zod.optional_default Zod.boolean false) props in
      let format :=
        Zod.field "format" (Zod.optional_default (Zod.enum Format_values) png) props in
      let quality := Zod.field "quality" (Zod.optional (Zod.number_min_max 0 100)) props in
      match fullPage, format, quality with
      | inr fp, inr f, inr q =>
          inr {| shot_fullPage := fp; shot_format := f; shot_quality := q |}
      | _, _, _ =>
          inl (Zod.issues_of fullPage ++ Zod.issues_of format ++ Zod.issues_of quality)%list
      end
  | _ => inl [Zod.issue invalid_type []]
  end.

Definition GetTextSchema (args : JsValue) : Zod.Result GetTextArgs :=
  match args with
  | JObject props =>
      match Zod.field "selector" (Zod.optional Zod.string) props with
      | inr s => inr {| text_selector := s |}
      | inl errs => inl errs
      end
  | _ => inl [Zod.issue invalid_type []]
  end.

Definition ClickSchema (args : JsValue) : Zod.Result ClickArgs :=
  match args with
  | JObject props =>
      match Zod.field "selector" Zod.string props with
      | inr s => inr {| click_selector := s |}
      | inl errs => inl errs
      end
  | _ => inl [Zod.issue invalid_type []]
  end.

Definition TypeSchema (args : JsValue) : Zod.Result TypeArgs :=
  match args with
  | JObject props =>
      let selector := Zod.field "selector" Zod.string props in
      let text := Zod.field "text" Zod.string props in
      match selector, text with
      | inr s, inr t => inr {| type_selector := s; type_text := t |}
      | _, _ => inl (Zod.issues_of selector ++ Zod.issues_of text)%list
      end
  | _ => inl [Zod.issue invalid_type []]
  end.

Definition EvaluateSchema (args : JsValue) : Zod.Result EvaluateArgs :=
  match args with
  | JObject props =>
      match Zod.field "script" Zod.string props with
      | inr s => inr {| eval_script := s |}
      | inl errs => inl errs
      end
  | _ => inl [Zod.issue invalid_type []]
  end.

End Schemas.

(** ** The engine and the rest of the platform *)

Definition BrowserH := nat.
Definition PageH := nat.
Definition ElementH := nat.
Definition Bytes := list Byte.byte.

(** The options object handed to [puppeteer.launch]; a field the code does
    not set is absent. *)
Record LaunchOptions := {
  opt_headless : JsValue;
  opt_args : option (list string);
  opt_defaultViewport : option JsValue;
  opt_executablePath : option JsValue
}.

(** The options object handed to [page.screenshot]. *)
Record ScreenshotOptions := {
  so_fullPage : bool;
  so_type : Format;
  so_quality : option Q
}.

(** Every call the server makes into puppeteer or chrome-aws-lambda. *)
Inductive EngineCall :=
| CallExecutablePath
| CallLaunch (o : LaunchOptions)
| CallBrowserClose (b : BrowserH)
| CallNewPage (b : BrowserH)
| CallGoto (p : PageH) (url : string) (w : WaitUntil)
| CallScreenshot (p : PageH) (o : ScreenshotOptions)
| CallQuery (p : PageH) (selector : string)
| CallElementText (p : PageH) (el : ElementH)
| CallBodyText (p : PageH)
| CallClick (p : PageH) (selector : string)
| CallType (p : PageH) (selector text : string)
| CallEval (p : PageH) (script : string).

Class Platform (World : Type) := {
  (* pure library functions *)
  valid_URL : string -> bool;                  (* [new URL(s)] succeeds *)
  zod_message : list ZodIssue -> string;       (* [ZodError.message] *)
  base64 : Bytes -> string;                    (* [Buffer.from(b).toString('base64')] *)
  JSON_stringify : JsValue -> string;          (* [`${JSON.stringify(v, null, 2)}`] *)
  (* the process environment and chrome-aws-lambda *)
  NODE_ENV : option string;
  chromium_args : list string;
  chromium_defaultViewport : JsValue;
  chromium_executablePath : World -> Completion JsValue * World;
  fs_existsSync : string -> World -> bool;
  (* puppeteer *)
  puppeteer_launch : LaunchOptions -> World -> Completion BrowserH * World;
  browser_close : BrowserH -> World -> Completion unit * World;
  browser_newPage : BrowserH -> World -> Completion PageH * World;
  page_goto : PageH -> string -> WaitUntil -> World -> Completion unit * World;
  page_screenshot : PageH -> ScreenshotOptions -> World -> Completion (option Bytes) * World;
  (* [page.$(selector)]: [None] is [null], no element matches *)
  page_query : PageH -> string -> World -> Completion (option ElementH) * World;
  (* [el.textContent] and [document.body.textContent] read inside the page:
     [None] is [null] *)
  page_textContent : PageH -> ElementH -> World -> Completion (option string) * World;
  page_body_textContent : PageH -> World -> Completion (option string) * World;
  page_click : PageH -> string -> World -> Completion unit * World;
  page_type : PageH -> string -> string -> World -> Completion unit * World;
  (* [eval(script)] inside the page, its value brought back *)
  page_eval : PageH -> string -> World -> Completion JsValue * World
}.

(** ** The response envelope *)

Inductive ContentItem :=
| TextItem (text : string)
| ImageItem (data mimeType : string).

(** [{ content: [...] }] *)
Definition Envelope := list ContentItem.

(** ** The server object and the monad of its methods *)

Record State (World : Type) := {
  browser : option BrowserH;        (* [this.browser] *)
  page : option PageH;              (* [this.page] *)
  world : World;
  trace : list EngineCall           (* engine calls made so far, oldest first *)
}.
Arguments browser {World} _.
Arguments page {World} _.
Arguments world {World} _.
Arguments trace {World} _.

Definition M (World A : Type) : Type := State World -> Completion A * State World.

Definition ret {W A} (a : A) : M W A := fun s => (Normal a, s).
Definition throw {W A} (t : Thrown) : M W A := fun s => (Throw t, s).
Definition bind {W A B} (m : M W A) (k : A -> M W B) : M W B := fun s =>
  match m s with
  | (Normal a, s') => k a s'
  | (Throw t, s') => (Throw t, s')
  end.
Definition try_catch {W A} (m : M W A) (handler : Thrown -> M W A) : M W A := fun s =>
  match m s with
  | (Normal a, s') => (Normal a, s')
  | (Throw t, s') => handler t s'
  end.

Declare Scope js_scope.
Delimit Scope js_scope with js.
Notation "x <- m ;; k" := (bind m (fun x => k))
  (at level 61, m at next level, right associativity) : js_scope.
Notation "m ;; k" := (bind m (fun _ => k))
  (at level 61, right associativity) : js_scope.
Open Scope js_scope.

Definition lift {W A} (c : Completion A) : M W A := fun s => (c, s).

Definition get_browser {W} : M W (option BrowserH) := fun s => (Normal (browser s), s).
Definition get_page {W} : M W (option PageH) := fun s => (Normal (page s), s).
Definition set_browser {W} (b : option BrowserH) : M W unit := fun s =>
  (Normal tt, {| browser := b; page := page s; world := world s; trace := trace s |}).
Definition set_page {W} (p : option PageH) : M W unit := fun s =>
  (Normal tt, {| browser := browser s; page := p; world := world s; trace := trace s |}).
Definition read_world {W A} (f : W -> A) : M W A := fun s => (Normal (f (world s)), s).

(** An awaited engine call: recorded in the trace, then answered by the
    engine. *)
Definition engine {W A} (c : EngineCall) (f : W -> Completion A * W) : M W A := fun s =>
  let (r, w') := f (world s) in
  (r, {| browser := browser s; page := page s; world := w';
         trace := (trace s ++ [c])%list |}).

(** [Schema.parse(args)] *)
Definition parse {W A} (r : Zod.Result A) : M W A :=
  match r with
  | inl errs => throw (ZodError errs)
  | inr a => ret a
  end.

Inductive Variant := Stdio | Http.

Definition dquote : string := String (Ascii.ascii_of_nat 34) EmptyString.

Definition bool_to_string (b : bool) : string := if b then "true" else "false".

(** [t || ''] *)
Definition or_empty (t : option string) : string :=
  match t with
  | Some s => s
  | None => ""
  end.

Definition chromePaths : list string :=
  [ "/Applications/Google Chrome.app/Contents/MacOS/Google Chrome";
    "/usr/bin/google-chrome";
    "/usr/bin/chromium-browser";
    "C:\Program Files\Google\Chrome\Application\chrome.exe";
    "C:\Program Files (x86)\Google\Chrome\Application\chrome.exe" ].

Definition is_production (env : option string) : bool :=
  match env with
  | Some e => String.eqb e "production"
  | None => false
  end.

Section Server.

Context {World : Type} {P : Platform World}.

#[local] Abbreviation M := (M World).

(** *** Engine calls *)

Definition await_executablePath : M JsValue :=
  engine CallExecutablePath chromium_executablePath.
Definition await_launch (o : LaunchOptions) : M BrowserH :=
  engine (CallLaunch o) (puppeteer_launch o).
Definition await_close (b : BrowserH) : M unit :=
  engine (CallBrowserClose b) (browser_close b).
Definition await_newPage (b : BrowserH) : M PageH :=
  engine (CallNewPage b) (browser_newPage b).
Definition await_goto (p : PageH) (url : string) (w : WaitUntil) : M unit :=
  engine (CallGoto p url w) (page_goto p url w).
Definition await_screenshot (p : PageH) (o : ScreenshotOptions) : M (option Bytes) :=
  engine (CallScreenshot p o) (page_screenshot p o).
Definition await_query (p : PageH) (selector : string) : M (option ElementH) :=
  engine (CallQuery p selector) (page_query p selector).
Definition await_textContent (p : PageH) (el : ElementH) : M (option string) :=
  engine (CallElementText p el) (page_textContent p el).
Definition await_body_textContent (p : PageH) : M (option string) :=
  engine (CallBodyText p) (page_body_textContent p).
Definition await_click (p : PageH) (selector : string) : M unit :=
  engine (CallClick p selector) (page_click p selector).
Definition await_type (p : PageH) (selector text : string) : M unit :=
  engine (CallType p selector text) (page_type p selector text).
Definition await_eval (p : PageH) (script : string) : M JsValue :=
  engine (CallEval p script) (page_eval p script).

(** [this.page!.member]: the assertion is erased at run time, so a null
    page is a [TypeError]. *)
Definition this_page (member : string) : M PageH :=
  p <- get_page ;;
  match p with
  | Some h => ret h
  | None =>
      throw (TypeError ("Cannot read properties of null (reading '" ++ member ++ "')"))
  end.

(** *** ensureBrowserAndPage *)

Definition ensureBrowserAndPage : M unit :=
  b <- get_browser ;;
  match b with
  | None => throw (Error "Browser not launched. Use puppeteer_launch first.")
  | Some h =>
      p <- get_page ;;
      match p with
      | None => np <- await_newPage h ;; set_page (Some np)
      | Some _ => ret tt
      end
  end.

(** *** launchBrowser *)

(** [if (this.browser) { await this.browser.close(); }] *)
Definition close_if_open : M unit :=
  b <- get_browser ;;
  match b with
  | Some h => await_close h
  | None => ret tt
  end.

(** The first chrome path that exists, as the [for] loop with [break]
    finds it. *)
Definition find_executablePath (w : World) : option string :=
  find (fun chromePath => fs_existsSync chromePath w) chromePaths.

(** The options object before the viewport is looked at. *)
Definition base_options (v : Variant) (args : JsValue) : M LaunchOptions :=
  match v with
  | Stdio =>
      headless <- lift (get_prop args "headless") ;;
      ret {| opt_headless := nullish_coalesce headless (JBool true);
             opt_args := None;
             opt_defaultViewport := None;
             opt_executablePath := None |}
  | Http =>
      if is_production NODE_ENV then
        executablePath <- await_executablePath ;;
        headless <- lift (get_prop args "headless") ;;
        ret {| opt_headless := nullish_coalesce headless (JBool true);
               opt_args := Some (chromium_args
                                 ++ ["--hide-scrollbars"; "--disable-web-security"])%list;
               opt_defaultViewport := Some chromium_defaultViewport;
               opt_executablePath := Some executablePath |}
      else
        executablePath <- read_world find_executablePath ;;
        headless <- lift (get_prop args "headless") ;;
        ret {| opt_headless := nullish_coalesce headless (JBool true);
               opt_args := Some ["--no-sandbox"; "--disable-setuid-sandbox"];
               opt_defaultViewport := None;
               opt_executablePath :=
                 match executablePath with
                 | Some path => if truthy (JString path) then Some (JString path) else None
                 | None => None
                 end |}
  end.

(** [if (args.viewport) { options.defaultViewport = {...}; }] *)
Definition with_viewport (args : JsValue) (options : LaunchOptions) : M LaunchOptions :=
  viewport <- lift (get_prop args "viewport") ;;
  if truthy viewport then
    width <- lift (get_prop viewport "width") ;;
    height <- lift (get_prop viewport "height") ;;
    ret {| opt_headless := opt_headless options;
           opt_args := opt_args options;
           opt_defaultViewport :=
             Some (JObject [("width", logical_or width (JNumber 1280));
                            ("height", logical_or height (JNumber 720))]);
           opt_executablePath := opt_executablePath options |}
  else ret options.

Definition launch_message (args : JsValue) : M string :=
  headless <- lift (get_prop args "headless") ;;
  ret ("Browser launched successfully in "
       ++ (if truthy headless then "headless" else "headed") ++ " mode").

Definition launchBrowser (v : Variant) (args : JsValue) : M Envelope :=
  close_if_open ;;
  options <- base_options v args ;;
  options <- with_viewport args options ;;
  b <- await_launch options ;;
  set_browser (Some b) ;;
  p <- await_newPage b ;;
  set_page (Some p) ;;
  text <- launch_message args ;;
  ret [TextItem text].

(** *** navigate *)

Definition navigate (args : JsValue) : M Envelope :=
  a <- parse (NavigateSchema valid_URL args) ;;
  ensureBrowserAndPage ;;
  p <- this_page "goto" ;;
  await_goto p (nav_url a) (nav_waitUntil a) ;;
  ret [TextItem ("Navigated to: " ++ nav_url a)].

(** *** screenshot *)

(** [quality] as a condition: absent and zero are both false. *)
Definition quality_truthy (quality : option Q) : bool :=
  match quality with
  | Some q => truthy (JNumber q)
  | None => false
  end.

(** [{ fullPage, type: format }], plus [quality] under
    [if (format === 'jpeg' && quality)]. *)
Definition screenshot_options (a : ScreenshotArgs) : ScreenshotOptions :=
  {| so_fullPage := shot_fullPage a;
     so_type := shot_format a;
     so_quality :=
       match shot_format a with
       | jpeg => if quality_truthy (shot_quality a) then shot_quality a else None
       | _ => None
       end |}.

Definition screenshot (args : JsValue) : M Envelope :=
  a <- parse (ScreenshotSchema args) ;;
  ensureBrowserAndPage ;;
  let options := screenshot_options a in
  p <- this_page "screenshot" ;;
  shot <- await_screenshot p options ;;
  match shot with
  | None => throw (Error "Failed to capture screenshot")
  | Some data =>
      ret [TextItem ("Screenshot taken (" ++ Format_to_string (shot_format a)
                     ++ ", fullPage: " ++ bool_to_string (shot_fullPage a) ++ ")");
           ImageItem (base64 data) ("image/" ++ Format_to_string (shot_format a))]
  end.

(** *** getText *)

(** [selector] as a condition: the selector to use, when it is given and
    not the empty string. *)
Definition selector_truthy (selector : option string) : option string :=
  match selector with
  | Some s => if truthy (JString s) then Some s else None
  | None => None
  end.

Definition getText (args : JsValue) : M Envelope :=
  a <- parse (GetTextSchema args) ;;
  ensureBrowserAndPage ;;
  text <- match selector_truthy (text_selector a) with
          | Some selector =>
              p <- this_page "$" ;;
              element <- await_query p selector ;;
              match element with
              | None => throw (Error ("Element not found: " ++ selector))
              | Some el =>
                  p <- this_page "evaluate" ;;
                  t <- await_textContent p el ;;
                  ret (or_empty t)
              end
          | None =>
              p <- this_page "evaluate" ;;
              t <- await_body_textContent p ;;
              ret (or_empty t)
          end ;;
  ret [TextItem match selector_truthy (text_selector a) with
                | Some selector => "Text from " ++ selector ++ ": " ++ text
                | None => "Page text: " ++ text
                end].

(** *** click, type, evaluate *)

Definition click (args : JsValue) : M Envelope :=
  a <- parse (ClickSchema args) ;;
  ensureBrowserAndPage ;;
  p <- this_page "click" ;;
  await_click p (click_selector a) ;;
  ret [TextItem ("Clicked element: " ++ click_selector a)].

Definition type (args : JsValue) : M Envelope :=
  a <- parse (TypeSchema args) ;;
  ensureBrowserAndPage ;;
  p <- this_page "type" ;;
  await_type p (type_selector a) (type_text a) ;;
  ret [TextItem ("Typed " ++ dquote ++ type_text a ++ dquote
                 ++ " into " ++ type_selector a)].

Definition evaluate (args : JsValue) : M Envelope :=
  a <- parse (EvaluateSchema args) ;;
  ensureBrowserAndPage ;;
  p <- this_page "evaluate" ;;
  result <- await_eval p (eval_script a) ;;
  ret [TextItem ("Script result: " ++ JSON_stringify result)].

(** *** closeBrowser and cleanup *)

Definition closeBrowser : M Envelope :=
  b <- get_browser ;;
  match b with
  | Some h =>
      await_close h ;;
      set_browser None ;;
      set_page None
  | None => ret tt
  end ;;
  ret [TextItem "Browser closed successfully"].

Definition cleanup : M unit := close_if_open.

(** *** The tool-call handler *)

(** The [switch] inside the [try]. *)
Definition dispatch (v : Variant) (name : string) (args : JsValue) : M Envelope :=
  if String.eqb name "puppeteer_launch" then launchBrowser v args
  else if String.eqb name "puppeteer_navigate" then navigate args
  else if String.eqb name "puppeteer_screenshot" then screenshot args
  else if String.eqb name "puppeteer_get_text" then getText args
  else if String.eqb name "puppeteer_click" then click args
  else if String.eqb name "puppeteer_type" then type args
  else if String.eqb name "puppeteer_evaluate" then evaluate args
  else if String.eqb name "puppeteer_close" then closeBrowser
  else throw (Error ("Unknown tool: " ++ name)).

(** [error instanceof Error ? error.message : String(error)] *)
Definition error_text (error : Thrown) : string :=
  match error with
  | ZodError issues => zod_message issues
  | Error message | TypeError message | EngineError message => message
  | ThrownValue rendering => rendering
  end.

Definition callTool (v : Variant) (name : string) (args : JsValue) : M Envelope :=
  try_catch (dispatch v name args)
            (fun error => ret [TextItem ("Error: " ++ error_text error)]).

End Server.

(** ** The tool catalog *)

(** [inputSchema]: the property schemas stay the object literals of the
    source; [required] is absent on the tools that do not list it. *)
Record InputSchema := {
  schema_type : string;
  schema_properties : list (string * JsValue);
  schema_required : option (list string)
}.

Record ToolDescriptor := {
  tool_name : string;
  tool_description : string;
  tool_inputSchema : InputSchema
}.

(** The list returned by the [ListToolsRequestSchema] handler of the stdio
    server. *)
Definition stdio_tools : list ToolDescriptor :=
  [ {| tool_name := "puppeteer_launch";
       tool_description := "Launch a new browser instance";
       tool_inputSchema :=
         {| schema_type := "object";
            schema_properties :=
              [ ("headless",
                 JObject [ ("type", JString "boolean");
                           ("description", JString "Run browser in headless mode");
                           ("default", JBool true) ]);
                ("viewport",
                 JObject [ ("type", JString "object");
                           ("properties",
                            JObject [ ("width", JObject [ ("type", JString "number");
                                                          ("default", JNumber 1280) ]);
                                      ("height", JObject [ ("type", JString "number");
                                                           ("default", JNumber 720) ]) ]) ]) ];
            schema_required := None |} |};
    {| tool_name := "puppeteer_navigate";
       tool_description := "Navigate to a URL";
       tool_inputSchema :=
         {| schema_type := "object";
            schema_properties :=
              [ ("url", JObject [ ("type", JString "string");
                                  ("description", JString "URL to navigate to") ]);
                ("waitUntil",
                 JObject [ ("type", JString "string");
                           ("enum", JArray [ JString "load"; JString "domcontentloaded";
                                             JString "networkidle0"; JString "networkidle2" ]);
                           ("default", JString "load") ]) ];
            schema_required := Some ["url"] |} |};
    {| tool_name := "puppeteer_screenshot";
       tool_description := "Take a screenshot of the current page";
       tool_inputSchema :=
         {| schema_type := "object";
            schema_properties :=
              [ ("fullPage", JObject [ ("type", JString "boolean"); ("default", JBool false) ]);
                ("format", JObject [ ("type", JString "string");
                                     ("enum", JArray [ JString "png"; JString "jpeg";
                                                       JString "webp" ]);
                                     ("default", JString "png") ]);
                ("quality", JObject [ ("type", JString "number");
                                      ("minimum", JNumber 0);
                                      ("maximum", JNumber 100) ]) ];
            schema_required := None |} |};
    {| tool_name := "puppeteer_get_text";
       tool_description := "Get text content from the page or a specific selector";
       tool_inputSchema :=
         {| schema_type := "object";
            schema_properties :=
              [ ("selector",
                 JObject [ ("type", JString "string");
                           ("description",
                            JString "CSS selector (optional, gets full page text if not provided)") ]) ];
            schema_required := None |} |};
    {| tool_name := "puppeteer_click";
       tool_description := "Click on an element";
       tool_inputSchema :=
         {| schema_type := "object";
            schema_properties :=
              [ ("selector", JObject [ ("type", JString "string");
                                       ("description", JString "CSS selector of element to click") ]) ];
            schema_required := Some ["selector"] |} |};
    {| tool_name := "puppeteer_type";
       tool_description := "Type text into an input field";
       tool_inputSchema :=
         {| schema_type := "object";
            schema_properties :=
              [ ("selector", JObject [ ("type", JString "string");
                                       ("description", JString "CSS selector of input field") ]);
                ("text", JObject [ ("type", JString "string");
                                   ("description", JString "Text to type") ]) ];
            schema_required := Some ["selector"; "text"] |} |};
    {| tool_name := "puppeteer_evaluate";
       tool_description := "Execute JavaScript in the browser context";
       tool_inputSchema :=
         {| schema_type := "object";
            schema_properties :=
              [ ("script", JObject [ ("type", JString "string");
                                     ("description", JString "JavaScript code to execute") ]) ];
            schema_required := Some ["script"] |} |};
    {| tool_name := "puppeteer_close";
       tool_description := "Close the browser instance";
       tool_inputSchema :=
         {| schema_type := "object";
            schema_properties := [];
            schema_required := None |} |} ].

(** The list returned by the [ListToolsRequestSchema] handler of
    [src/http-server.ts]. *)
Definition http_tools : list ToolDescriptor :=
  [ {| tool_name := "puppeteer_launch";
       tool_description := "Launch a new browser instance";
       tool_inputSchema :=
         {| schema_type := "object";
            schema_properties :=
              [ ("headless",
                 JObject [ ("type", JString "boolean");
                           ("description", JString "Run browser in headless mode");
                           ("default", JBool true) ]);
                ("viewport",
                 JObject [ ("type", JString "object");
                           ("properties",
                            JObject [ ("width", JObject [ ("type", JString "number");
                                                          ("default", JNumber 1280) ]);
                                      ("height", JObject [ ("type", JString "number");
                                                           ("default", JNumber 720) ]) ]) ]) ];
            schema_required := None |} |};
    {| tool_name := "puppeteer_navigate";
       tool_description := "Navigate to a URL";
       tool_inputSchema :=
         {| schema_type := "object";
            schema_properties :=
              [ ("url", JObject [ ("type", JString "string");
                                  ("description", JString "URL to navigate to") ]);
                ("waitUntil",
                 JObject [ ("type", JString "string");
                           ("enum", JArray [ JString "load"; JString "domcontentloaded";
                                             JString "networkidle0"; JString "networkidle2" ]);
                           ("default", JString "load") ]) ];
            schema_required := Some ["url"] |} |};
    {| tool_name := "puppeteer_screenshot";
       tool_description := "Take a screenshot of the current page";
       tool_inputSchema :=
         {| schema_type := "object";
            schema_properties :=
              [ ("fullPage", JObject [ ("type", JString "boolean"); ("default", JBool false) ]);
                ("format", JObject [ ("type", JString "string");
                                     ("enum", JArray [ JString "png"; JString "jpeg";
                                                       JString "webp" ]);
                                     ("default", JString "png") ]);
                ("quality", JObject [ ("type", JString "number");
                                      ("minimum", JNumber 0);
                                      ("maximum", JNumber 100) ]) ];
            schema_required := None |} |};
    {| tool_name := "puppeteer_get_text";
       tool_description := "Get text content from the page or a specific selector";
       tool_inputSchema :=
         {| schema_type := "object";
            schema_properties :=
              [ ("selector",
                 JObject [ ("type", JString "string");
                           ("description",
                            JString "CSS selector (optional, gets full page text if not provided)") ]) ];
            schema_required := None |} |};
    {| tool_name := "puppeteer_click";
       tool_description := "Click on an element";
       tool_inputSchema :=
         {| schema_type := "object";
            schema_properties :=
              [ ("selector", JObject [ ("type", JString "string");
                                       ("description", JString "CSS selector of element to click") ]) ];
            schema_required := Some ["selector"] |} |};
    {| tool_name := "puppeteer_type";
       tool_description := "Type text into an input field";
       tool_inputSchema :=
         {| schema_type := "object";
            schema_properties :=
              [ ("selector", JObject [ ("type", JString "string");
                                       ("description", JString "CSS selector of input field") ]);
                ("text", JObject [ ("type", JString "string");
                                   ("description", JString "Text to type") ]) ];
            schema_required := Some ["selector"; "text"] |} |};
    {| tool_name := "puppeteer_evaluate";
       tool_description := "Execute JavaScript in the browser context";
       tool_inputSchema :=
         {| schema_type := "object";
            schema_properties :=
              [ ("script", JObject [ ("type", JString "string");
                                     ("description", JString "JavaScript code to execute") ]) ];
            schema_required := Some ["script"] |} |};
    {| tool_name := "puppeteer_close";
       tool_description := "Close the browser instance";
       tool_inputSchema :=
         {| schema_type := "object";
            schema_properties := [];
            schema_required := None |} |} ].

Definition tools (v : Variant) : list ToolDescriptor :=
  match v with
  | Stdio => stdio_tools
  | Http => http_tools
  end.

(** The handler: [async () => ({ tools: [...] })]. *)
Definition listTools {W} (v : Variant) : M W (list ToolDescriptor) := ret (tools v).

Definition required_fields (d : ToolDescriptor) : list string :=
  match schema_required (tool_inputSchema d) with
  | Some fields => fields
  | None => []
  end.

(** ** Running the server *)

(** The fields as the class declares them: [browser = null], [page = null]. *)
Definition initial {W} (w : W) : State W :=
  {| browser := None; page := None; world := w; trace := [] |}.

(** A sequence of tool calls, one after the other; the envelopes in order. *)
Fixpoint serve {W} {P : Platform W} (v : Variant) (requests : list (string * JsValue))
         (s : State W) : list (Completion Envelope) * State W :=
  match requests with
  | [] => ([], s)
  | (name, args) :: rest =>
      let (r, s1) := callTool v name args s in
      let (rs, s2) := serve v rest s1 in
      (r :: rs, s2)
  end.

(** ** Vocabulary of the specification *)

(** Session invariant of the data model: a page handle only with a browser
    handle. *)
Definition session_ok {W} (s : State W) : Prop :=
  page s <> None -> browser s <> None.

(** [needle] occurs in [hay]. *)
Fixpoint contains (needle hay : string) : bool :=
  String.prefix needle hay
  || match hay with
     | EmptyString => false
     | String _ rest => contains needle rest
     end.

(** The tools that work on the page: each parses its arguments with its own
    schema and then calls [ensureBrowserAndPage]. *)
Inductive PageTool := Navigate | Screenshot | GetText | Click | TypeText | Evaluate.

Definition page_tool_name (t : PageTool) : string :=
  match t with
  | Navigate => "puppeteer_navigate"
  | Screenshot => "puppeteer_screenshot"
  | GetText => "puppeteer_get_text"
  | Click => "puppeteer_click"
  | TypeText => "puppeteer_type"
  | Evaluate => "puppeteer_evaluate"
  end.

(** The issues the tool's schema raises on [args]; [[]] when it accepts. *)
Definition schema_issues {W} {P : Platform W} (t : PageTool) (args : JsValue)
  : list ZodIssue :=
  match t with
  | Navigate => Zod.issues_of (NavigateSchema valid_URL args)
  | Screenshot => Zod.issues_of (ScreenshotSchema args)
  | GetText => Zod.issues_of (GetTextSchema args)
  | Click => Zod.issues_of (ClickSchema args)
  | TypeText => Zod.issues_of (TypeSchema args)
  | Evaluate => Zod.issues_of (EvaluateSchema args)
  end.

Definition schema_accepts {W} {P : Platform W} (t : PageTool) (args : JsValue) : bool :=
  match t with
  | Navigate => Zod.accepted (NavigateSchema valid_URL args)
  | Screenshot => Zod.accepted (ScreenshotSchema args)
  | GetText => Zod.accepted (GetTextSchema args)
  | Click => Zod.accepted (ClickSchema args)
  | TypeText => Zod.accepted (TypeSchema args)
  | Evaluate => Zod.accepted (EvaluateSchema args)
  end.

(** *** Conformance to an advertised [inputSchema]

    The part of JSON Schema the catalog uses: [type], [enum], [minimum],
    [maximum] on each listed property, and [required]. *)

Definition has_json_type (ty : JsValue) (v : JsValue) : bool :=
  match ty, v with
  | JString ty, JBool _ => String.eqb ty "boolean"
  | JString ty, JNumber _ => String.eqb ty "number"
  | JString ty, JString _ => String.eqb ty "string"
  | JString ty, JObject _ => String.eqb ty "object"
  | JString ty, JArray _ => String.eqb ty "array"
  | JString ty, JNull => String.eqb ty "null"
  | JUndefined, _ => true
  | _, _ => false
  end.

Definition in_enum (enum : JsValue) (v : JsValue) : bool :=
  match enum, v with
  | JArray allowed, JString s =>
      existsb (fun a => match a with JString a => String.eqb s a | _ => false end) allowed
  | JArray _, _ => false
  | _, _ => true
  end.

Definition within_bounds (minimum maximum : JsValue) (v : JsValue) : bool :=
  match v with
  | JNumber q =>
      match minimum with JNumber lo => Qle_bool lo q | _ => true end
      && match maximum with JNumber hi => Qle_bool q hi | _ => true end
  | _ => true
  end.

Definition property_conforms (schema : JsValue) (v : JsValue) : bool :=
  match schema with
  | JObject keywords =>
      has_json_type (own_prop "type" keywords) v
      && in_enum (own_prop "enum" keywords) v
      && within_bounds (own_prop "minimum" keywords) (own_prop "maximum" keywords) v
  | _ => true
  end.

Definition is_present (v : JsValue) : bool :=
  match v with JUndefined => false | _ => true end.

Definition conforms (d : ToolDescriptor) (args : JsValue) : bool :=
  match args with
  | JObject props =>
      forallb (fun k => is_present (own_prop k props)) (required_fields d)
      && forallb (fun ks => let (k, schema) := ks : string * JsValue in
                            negb (is_present (own_prop k props))
                            || property_conforms schema (own_prop k props))
                 (schema_properties (tool_inputSchema d))
  | _ => false
  end.

Definition descriptor_of (v : Variant) (name : string) : option ToolDescriptor :=
  find (fun d => String.eqb (tool_name d) name) (tools v).

(** ** A small engine to run the server on

    One browser process per launch, pages that live as long as their
    browser, and a document given as a table from selectors to the text of
    their first match.  [launches_left] makes the engine refuse to launch
    once it reaches zero. *)

Module Toy.

Record World := {
  next_handle : nat;
  open_browsers : list BrowserH;
  page_owner : list (PageH * BrowserH);
  launches_left : nat;
  document : list (string * option string);
  body : option string
}.

Definition fresh_world (launches : nat) (doc : list (string * option string))
           (body_text : option string) : World :=
  {| next_handle := 0; open_browsers := []; page_owner := [];
     launches_left := launches; document := doc; body := body_text |}.

Definition browser_open (b : BrowserH) (w : World) : bool :=
  existsb (Nat.eqb b) (open_browsers w).

Definition page_alive (p : PageH) (w : World) : bool :=
  existsb (fun pb => Nat.eqb (fst pb) p && browser_open (snd pb) w) (page_owner w).

Definition target_closed {A} : Completion A :=
  Throw (EngineError "Protocol error: Target closed").

Definition on_page {A} (p : PageH) (w : World) (r : Completion A) : Completion A * World :=
  (if page_alive p w then r else target_closed, w).

Fixpoint index_of (selector : string) (doc : list (string * option string)) (i : nat)
  : option ElementH :=
  match doc with
  | [] => None
  | (k, _) :: rest => if String.eqb k selector then Some i else index_of selector rest (S i)
  end.

Definition launch (o : LaunchOptions) (w : World) : Completion BrowserH * World :=
  match launches_left w with
  | O => (Throw (EngineError "Failed to launch the browser process!"), w)
  | S n =>
      (Normal (next_handle w),
       {| next_handle := S (next_handle w);
          open_browsers := next_handle w :: open_browsers w;
          page_owner := page_owner w;
          launches_left := n;
          document := document w;
          body := body w |})
  end.

Definition close (b : BrowserH) (w : World) : Completion unit * World :=
  (Normal tt,
   {| next_handle := next_handle w;
      open_browsers := filter (fun b' => negb (Nat.eqb b b')) (open_browsers w);
      page_owner := page_owner w;
      launches_left := launches_left w;
      document := document w;
      body := body w |}).

Definition newPage (b : BrowserH) (w : World) : Completion PageH * World :=
  if browser_open b w then
    (Normal (next_handle w),
     {| next_handle := S (next_handle w);
        open_browsers := open_browsers w;
        page_owner := (next_handle w, b) :: page_owner w;
        launches_left := launches_left w;
        document := document w;
        body := body w |})
  else (target_closed, w).

Definition act (p : PageH) (selector : string) (w : World) : Completion unit * World :=
  on_page p w match index_of selector (document w) 0 with
              | Some _ => Normal tt
              | None => Throw (EngineError ("No element found for selector: " ++ selector))
              end.

Definition render (v : JsValue) : string :=
  match v with
  | JUndefined => "undefined"
  | JNull => "null"
  | JBool b => bool_to_string b
  | JString s => dquote ++ s ++ dquote
  | JNumber _ => "<number>"
  | JArray _ => "[...]"
  | JObject _ => "{...}"
  end.

#[global] Instance platform : Platform World := {|
  valid_URL := fun s => String.prefix "http://" s || String.prefix "https://" s;
  zod_message := fun issues =>
    String.concat "; " (map (fun i => String.concat "." (issue_path i)
                                      ++ ": " ++ or_empty (issue_custom i)) issues);
  base64 := fun data => String.concat "" (map (fun _ => "AA") data);
  JSON_stringify := render;
  NODE_ENV := None;
  chromium_args := [];
  chromium_defaultViewport := JObject [("width", JNumber 800); ("height", JNumber 600)];
  chromium_executablePath := fun w => (Normal (JString "/tmp/chromium"), w);
  fs_existsSync := fun path _ => String.eqb path "/usr/bin/chromium-browser";
  puppeteer_launch := launch;
  browser_close := close;
  browser_newPage := newPage;
  page_goto := fun p _ _ w => on_page p w (Normal tt);
  page_screenshot := fun p _ w => on_page p w (Normal (Some [Byte.x89; Byte.x50]));
  page_query := fun p selector w => on_page p w (Normal (index_of selector (document w) 0));
  page_textContent := fun p el w =>
    on_page p w (Normal (match nth_error (document w) el with
                         | Some (_, t) => t
                         | None => None
                         end));
  page_body_textContent := fun p w => on_page p w (Normal (body w));
  page_click := act;
  page_type := fun p selector _ w => act p selector w;
  page_eval := fun p script w =>
    on_page p w (Normal (if String.eqb script "1+1" then JNumber 2 else JUndefined))
|}.

(** A page with one heading and a body; the engine launches once. *)
Definition world1 : World :=
  fresh_world 1 [("h1", Some "Title"); ("#empty", None)] (Some "Title and text").

Definition start : State World := initial world1.

End Toy.

(** ** Reading the list of engine calls *)

(** The page a call works on, when it is a call on a page. *)
Definition call_page (c : EngineCall) : option PageH :=
  match c with
  | CallGoto p _ _ | CallScreenshot p _ | CallQuery p _ | CallElementText p _
  | CallBodyText p | CallClick p _ | CallType p _ _ | CallEval p _ => Some p
  | CallExecutablePath | CallLaunch _ | CallBrowserClose _ | CallNewPage _ => None
  end.

Definition is_launch (c : EngineCall) : bool :=
  match c with
  | CallLaunch _ => true
  | _ => false
  end.

(** Calls made on a browser or on a page: all but the launch itself and
    the lookup of the chromium executable. *)
Definition needs_browser (c : EngineCall) : bool :=
  match c with
  | CallLaunch _ | CallExecutablePath => false
  | _ => true
  end.

(** No call on a browser or page comes before the first launch call;
    [seen] says whether a launch call has already gone by. *)
Fixpoint launched_first (seen : bool) (calls : list EngineCall) : bool :=
  match calls with
  | [] => true
  | c :: rest =>
      if is_launch c then launched_first true rest
      else (negb (needs_browser c) || seen) && launched_first seen rest
  end.

(** What holds of the session and its calls after any run from the start:
    calls in order, a launch call behind every browser handle, and a page
    handle only with a browser handle. *)
Definition Ordered {W} (s : State W) : Prop :=
  launched_first false (trace s) = true /\
  (browser s <> None -> existsb is_launch (trace s) = true) /\
  session_ok s.

Definition WaitUntil_to_string (w : WaitUntil) : string :=
  match w with
  | load => "load"
  | domcontentloaded => "domcontentloaded"
  | networkidle0 => "networkidle0"
  | networkidle2 => "networkidle2"
  end.

(** The small engine under another environment: [NODE_ENV] as given, and
    an engine that may refuse to close browsers or to open pages. *)
Definition toy_variant (env : option string) (closes opens : bool)
  : Platform Toy.World := {|
  valid_URL := @valid_URL _ Toy.platform;
  zod_message := @zod_message _ Toy.platform;
  base64 := @base64 _ Toy.platform;
  JSON_stringify := @JSON_stringify _ Toy.platform;
  NODE_ENV := env;
  chromium_args := ["--single-process"];
  chromium_defaultViewport := @chromium_defaultViewport _ Toy.platform;
  chromium_executablePath := @chromium_executablePath _ Toy.platform;
  fs_existsSync := @fs_existsSync _ Toy.platform;
  puppeteer_launch := Toy.launch;
  browser_close := fun b w =>
    if closes then Toy.close b w
    else (Throw (EngineError "Protocol error: Connection closed"), w);
  browser_newPage := fun b w =>
    if opens then Toy.newPage b w else (Toy.target_closed, w);
  page_goto := @page_goto _ Toy.platform;
  page_screenshot := @page_screenshot _ Toy.platform;
  page_query := @page_query _ Toy.platform;
  page_textContent := @page_textContent _ Toy.platform;
  page_body_textContent := @page_body_textContent _ Toy.platform;
  page_click := @page_click _ Toy.platform;
  page_type := @page_type _ Toy.platform;
  page_eval := @page_eval _ Toy.platform
|}.

(** ** The CORS middleware of the HTTP variant *)

Module Cors.

(** What the middleware touches of the response: its headers, one value
    per header name whatever the case of the name. *)
Record Res := {
  headers : list (string * string)
}.

Definition lower (c : Ascii.ascii) : Ascii.ascii :=
  let n := Ascii.nat_of_ascii c in
  if Nat.leb 65 n && Nat.leb n 90 then Ascii.ascii_of_nat (n + 32) else c.

Fixpoint lowercase (s : string) : string :=
  match s with
  | EmptyString => EmptyString
  | String c rest => String (lower c) (lowercase rest)
  end.

Definition same_name (a b : string) : bool :=
  String.eqb (lowercase a) (lowercase b).

(** [res.header(field, value)] *)
Definition header (field value : string) (res : Res) : Res :=
  {| headers := (field, value)
                :: filter (fun kv => negb (same_name (fst kv) field)) (headers res) |}.

(** [res.getHeader(field)] *)
Definition getHeader (field : string) (res : Res) : option string :=
  option_map snd (find (fun kv => same_name (fst kv) field) (headers res)).

(** How the middleware lets go of the request: by calling
    [res.sendStatus(code)] and returning, or by calling [next()].  What
    Express does to the response inside either call is not part of the
    middleware. *)
Inductive Outcome := SendStatus (code : nat) | Next.

(** [(req, res, next) => { ... }], on [req.method]: the response as it is
    when the middleware lets go of it, and how it does. *)
Definition middleware (method : string) (res : Res) : Res * Outcome :=
  let res := header "Access-Control-Allow-Origin" "*" res in
  let res := header "Access-Control-Allow-Methods" "GET, POST, OPTIONS" res in
  let res := header "Access-Control-Allow-Headers" "Content-Type, Authorization" res in
  if String.eqb method "OPTIONS" then (res, SendStatus 200)
  else (res, Next).

End Cors.

(** ** Reading a launch *)

(** The world in which [launchBrowser] goes on after
    [if (this.browser) await this.browser.close()]. *)
Definition world_after_close {W} {P : Platform W} (s : State W) : W :=
  match browser s with
  | Some old => snd (browser_close old (world s))
  | None => world s
  end.

(** The open browser, if there is one, is closed without an error. *)
Definition closes_cleanly {W} {P : Platform W} (s : State W) : Prop :=
  match browser s with
  | Some old => fst (browser_close old (world s)) = Normal tt
  | None => True
  end.

Definition closing_calls {W} (s : State W) : list EngineCall :=
  match browser s with
  | Some old => [CallBrowserClose old]
  | None => []
  end.

(** The hosted mode of the HTTP variant asks for the chromium executable
    before it launches; the other modes ask nothing. *)
Definition lookup_calls {W} {P : Platform W} (v : Variant) : list EngineCall :=
  match v with
  | Stdio => []
  | Http => if is_production NODE_ENV then [CallExecutablePath] else []
  end.

(** That lookup, where there is one, answers and leaves the world as
    [w1]. *)
Definition lookup_succeeds {W} {P : Platform W} (v : Variant) (w0 w1 : W) : Prop :=
  match v with
  | Stdio => w1 = w0
  | Http =>
      if is_production NODE_ENV
      then exists e, chromium_executablePath w0 = (Normal e, w1)
      else w1 = w0
  end.

(** ** A weakest-precondition calculus for the methods

    [wp m Q R s]: run from [s], the method [m] either returns [a] in a state
    satisfying [Q a], or throws [t] in a state satisfying [R t]. *)

Section Logic.

Context {W : Type} {P : Platform W}.

Definition wp {A} (m : M W A) (Q : A -> State W -> Prop)
           (R : Thrown -> State W -> Prop) (s : State W) : Prop :=
  match m s with
  | (Normal a, s') => Q a s'
  | (Throw t, s') => R t s'
  end.

(** The state after an engine call [c] that left the world as [w']. *)
Definition after_call (s : State W) (c : EngineCall) (w' : W) : State W :=
  {| browser := browser s; page := page s; world := w';
     trace := (trace s ++ [c])%list |}.

Lemma wp_ret {A} (a : A) Q R s : Q a s -> wp (ret a) Q R s.
Proof. exact (fun H => H). Qed.

Lemma wp_throw {A} t (Q : A -> State W -> Prop) R s : R t s -> wp (throw t) Q R s.
Proof. exact (fun H => H). Qed.

Lemma wp_bind {A B} (m : M W A) (k : A -> M W B) Q R s :
  wp m (fun a s' => wp (k a) Q R s') R s -> wp (bind m k) Q R s.
Proof.
  unfold wp, bind. destruct (m s) as [[a|t] s']; auto.
Qed.

Lemma wp_try_catch {A} (m : M W A) handler Q R s :
  wp m Q (fun t s' => wp (handler t) Q R s') s -> wp (try_catch m handler) Q R s.
Proof.
  unfold wp, try_catch. destruct (m s) as [[a|t] s']; auto.
Qed.

Lemma wp_mono {A} (m : M W A) (Q Q' : A -> State W -> Prop) (R R' : Thrown -> State W -> Prop) s :
  wp m Q R s ->
  (forall a s', Q a s' -> Q' a s') ->
  (forall t s', R t s' -> R' t s') ->
  wp m Q' R' s.
Proof.
  unfold wp. destruct (m s) as [[a|t] s']; auto.
Qed.

Lemma wp_lift {A} (c : Completion A) Q R s :
  match c with Normal a => Q a s | Throw t => R t s end -> wp (lift c) Q R s.
Proof. destruct c; exact (fun H => H). Qed.

Lemma wp_parse {A} (r : Zod.Result A) Q R s :
  match r with inl errs => R (ZodError errs) s | inr a => Q a s end ->
  wp (parse r) Q R s.
Proof. destruct r; exact (fun H => H). Qed.

Lemma wp_get_browser Q R (s : State W) : Q (browser s) s -> wp get_browser Q R s.
Proof. exact (fun H => H). Qed.

Lemma wp_get_page Q R (s : State W) : Q (page s) s -> wp get_page Q R s.
Proof. exact (fun H => H). Qed.

Lemma wp_set_browser b Q R (s : State W) :
  Q tt {| browser := b; page := page s; world := world s; trace := trace s |} ->
  wp (set_browser b) Q R s.
Proof. exact (fun H => H). Qed.

Lemma wp_set_page p Q R (s : State W) :
  Q tt {| browser := browser s; page := p; world := world s; trace := trace s |} ->
  wp (set_page p) Q R s.
Proof. exact (fun H => H). Qed.

Lemma wp_read_world {A} (f : W -> A) Q R (s : State W) :
  Q (f (world s)) s -> wp (read_world f) Q R s.
Proof. exact (fun H => H). Qed.

(** Whatever the engine answers. *)
Lemma wp_engine {A} c (f : W -> Completion A * W) Q R (s : State W) :
  (forall a w', Q a (after_call s c w')) ->
  (forall t w', R t (after_call s c w')) ->
  wp (engine c f) Q R s.
Proof.
  intros HQ HR. unfold wp, engine. destruct (f (world s)) as [[a|t] w']; simpl.
  - apply HQ.
  - apply HR.
Qed.

Lemma wp_elim {A} (m : M W A) Q R s r s' :
  wp m Q R s -> m s = (r, s') ->
  match r with Normal a => Q a s' | Throw t => R t s' end.
Proof.
  unfold wp. intros H E. rewrite E in H. destruct r; exact H.
Qed.

End Logic.

Ltac wp_step :=
  lazymatch goal with
  | |- wp (bind _ _) _ _ _ => apply wp_bind
  | |- wp (ret _) _ _ _ => apply wp_ret
  | |- wp (throw _) _ _ _ => apply wp_throw
  | |- wp (try_catch _ _) _ _ _ => apply wp_try_catch
  | |- wp get_browser _ _ _ => apply wp_get_browser
  | |- wp get_page _ _ _ => apply wp_get_page
  | |- wp (set_browser _) _ _ _ => apply wp_set_browser
  | |- wp (set_page _) _ _ _ => apply wp_set_page
  | |- wp (read_world _) _ _ _ => apply wp_read_world
  | |- wp (parse _) _ _ _ => apply wp_parse
  | |- wp (lift _) _ _ _ => apply wp_lift
  | |- wp (engine _ _) _ _ _ => apply wp_engine; intros
  | |- wp (match ?x with _ => _ end) _ _ _ => destruct x eqn:?
  | |- match ?x with _ => _ end => destruct x eqn:?
  end.

Ltac wp_go :=
  repeat (cbn [browser page world trace after_call]; wp_step).

Ltac wp_unfold :=
  unfold callTool, dispatch, launchBrowser, navigate, screenshot, getText, click, type,
    evaluate, closeBrowser, cleanup, ensureBrowserAndPage, close_if_open, base_options,
    with_viewport, launch_message, this_page,
    await_executablePath, await_launch, await_close, await_newPage, await_goto,
    await_screenshot, await_query, await_textContent, await_body_textContent,
    await_click, await_type, await_eval.

Ltac session_solve :=
  unfold session_ok, after_call in *; cbn [browser page world trace] in *;
  try congruence; auto.

Lemma wp_of_eq {W} {A} (m : M W A) Q R (s : State W) r s' :
  m s = (r, s') ->
  match r with Normal a => Q a s' | Throw t => R t s' end ->
  wp m Q R s.
Proof. intros E H. unfold wp. rewrite E. destruct r; exact H. Qed.

(** The engine's answer, kept as an equation. *)
Lemma wp_engine_ans {W} {A} c (f : W -> Completion A * W) Q R (s : State W) :
  (forall r w', f (world s) = (r, w') ->
     match r with
     | Normal a => Q a (after_call s c w')
     | Throw t => R t (after_call s c w')
     end) ->
  wp (engine c f) Q R s.
Proof.
  intros H. unfold wp, engine.
  destruct (f (world s)) as [r w'] eqn:E. specialize (H r w' eq_refl).
  destruct r; exact H.
Qed.

Ltac wpx_step :=
  lazymatch goal with
  | |- wp (engine _ _) _ _ _ =>
      apply wp_engine_ans; intros [?|?] ? ?
  | _ => wp_step
  end.

Ltac wpx_go :=
  repeat (cbn [browser page world trace after_call]; cbv beta iota; wpx_step).

(** ** The session invariant *)

Section Invariant.

Context {W : Type} {P : Platform W}.

Lemma initial_session_ok (w : W) : session_ok (initial w).
Proof. unfold session_ok, initial; simpl. intros H; exact H. Qed.

Lemma ensureBrowserAndPage_session_ok (s : State W) :
  session_ok s ->
  wp ensureBrowserAndPage (fun _ s' => session_ok s') (fun _ s' => session_ok s') s.
Proof. intros H. wp_unfold. wp_go. all: session_solve. Qed.

Lemma launchBrowser_session_ok v args (s : State W) :
  session_ok s ->
  wp (launchBrowser v args) (fun _ s' => session_ok s') (fun _ s' => session_ok s') s.
Proof. intros H. wp_unfold. wp_go. all: session_solve. Qed.

Lemma closeBrowser_session_ok (s : State W) :
  session_ok s ->
  wp closeBrowser (fun _ s' => session_ok s') (fun _ s' => session_ok s') s.
Proof. intros H. wp_unfold. wp_go. all: session_solve. Qed.

Lemma cleanup_session_ok (s : State W) :
  session_ok s ->
  wp cleanup (fun _ s' => session_ok s') (fun _ s' => session_ok s') s.
Proof. intros H. wp_unfold. wp_go. all: session_solve. Qed.

Lemma page_tools_session_ok args (s : State W) :
  session_ok s ->
  forall m, In m [navigate; screenshot; getText; click; type; evaluate] ->
  wp (m args) (fun _ s' => session_ok s') (fun _ s' => session_ok s') s.
Proof.
  intros H m Hm. simpl in Hm.
  repeat (destruct Hm as [<- | Hm]; [wp_unfold; wp_go; session_solve | ]).
  contradiction.
Qed.

Lemma callTool_session_ok v name args (s : State W) :
  session_ok s ->
  wp (callTool v name args) (fun _ s' => session_ok s') (fun _ s' => session_ok s') s.
Proof.
  intros H. unfold callTool, dispatch. apply wp_try_catch.
  pose proof (page_tools_session_ok args s H) as Hpage.
  assert (Hcatch : forall (t : Thrown) (s' : State W), session_ok s' ->
            wp (ret [TextItem ("Error: " ++ error_text t)])
               (fun _ s'' => session_ok s'') (fun _ s'' => session_ok s'') s')
    by (intros; apply wp_ret; assumption).
  repeat match goal with
         | |- wp (if ?c then _ else _) _ _ _ => destruct c
         end.
  - eapply wp_mono; [apply launchBrowser_session_ok; exact H | auto | auto].
  - eapply wp_mono; [apply Hpage; simpl; auto | auto | auto].
  - eapply wp_mono; [apply Hpage; simpl; auto | auto | auto].
  - eapply wp_mono; [apply Hpage; simpl; auto | auto | auto].
  - eapply wp_mono; [apply Hpage; simpl; auto 6 | auto | auto].
  - eapply wp_mono; [apply Hpage; simpl; auto 7 | auto | auto].
  - eapply wp_mono; [apply Hpage; simpl; auto 8 | auto | auto].
  - eapply wp_mono; [apply closeBrowser_session_ok; exact H | auto | auto].
  - apply wp_throw. apply Hcatch. exact H.
Qed.

Lemma wp_final {A} (m : M W A) (I : State W -> Prop) s :
  wp m (fun _ s' => I s') (fun _ s' => I s') s -> I (snd (m s)).
Proof.
  unfold wp. destruct (m s) as [[a|t] s']; auto.
Qed.

End Invariant.

Lemma serve_session_ok {W} {P : Platform W} v (requests : list (string * JsValue)) :
  forall s : State W, session_ok s -> session_ok (snd (serve v requests s)).
Proof.
  induction requests as [|[name args] rest IH]; intros s H; simpl.
  - exact H.
  - pose proof (callTool_session_ok v name args s H) as H1. apply wp_final in H1.
    destruct (callTool v name args s) as [r s1]. simpl in H1.
    specialize (IH s1 H1).
    destruct (serve v rest s1) as [rs s2]. exact IH.
Qed.

(** C8. The session invariant "a page handle is present only when a browser
    handle is present" holds in the initial state and is preserved by every
    operation, whether it completes or throws partway: by
    [ensureBrowserAndPage] (with its lazy page creation), [launchBrowser],
    [closeBrowser], [cleanup], each of the six page operations, every tool
    call through the handler, and hence every sequence of tool calls. *)
Theorem session_invariant_preserved {W} {P : Platform W} :
  (forall w : W, session_ok (initial w)) /\
  (forall s : State W, session_ok s ->
     session_ok (snd (ensureBrowserAndPage s)) /\
     session_ok (snd (closeBrowser s)) /\
     session_ok (snd (cleanup s)) /\
     (forall v args, session_ok (snd (launchBrowser v args s))) /\
     (forall args,
        session_ok (snd (navigate args s)) /\
        session_ok (snd (screenshot args s)) /\
        session_ok (snd (getText args s)) /\
        session_ok (snd (click args s)) /\
        session_ok (snd (type args s)) /\
        session_ok (snd (evaluate args s))) /\
     (forall v name args, session_ok (snd (callTool v name args s))) /\
     (forall v requests, session_ok (snd (serve v requests s)))).
Proof.
  split.
  - apply initial_session_ok.
  - intros s H.
    split; [apply wp_final, ensureBrowserAndPage_session_ok, H |].
    split; [apply wp_final, closeBrowser_session_ok, H |].
    split; [apply wp_final, cleanup_session_ok, H |].
    split; [intros; apply wp_final, launchBrowser_session_ok, H |].
    split.
    + intros args.
      repeat split; apply wp_final, (page_tools_session_ok args s H); simpl; auto 8.
    + split.
      * intros; apply wp_final, callTool_session_ok, H.
      * intros; apply serve_session_ok, H.
Qed.

Lemma session_invariant_preserved_witness :
  session_ok Toy.start /\
  session_ok (snd (callTool Stdio "puppeteer_launch" (JObject []) Toy.start)).
Proof.
  assert (H0 : session_ok Toy.start) by (unfold session_ok; simpl; intros H; exact H).
  split; [exact H0 |].
  apply (proj2 (@session_invariant_preserved Toy.World Toy.platform) Toy.start H0).
Defined.

(** ** The tool-call boundary *)

Lemma not_in_catalog_eqb v name :
  ~ In name (map tool_name (tools v)) ->
  String.eqb name "puppeteer_launch" = false /\
  String.eqb name "puppeteer_navigate" = false /\
  String.eqb name "puppeteer_screenshot" = false /\
  String.eqb name "puppeteer_get_text" = false /\
  String.eqb name "puppeteer_click" = false /\
  String.eqb name "puppeteer_type" = false /\
  String.eqb name "puppeteer_evaluate" = false /\
  String.eqb name "puppeteer_close" = false.
Proof.
  intros H.
  assert (K : forall k, In k (map tool_name (tools v)) -> String.eqb name k = false).
  { intros k Hk. destruct (String.eqb_spec name k) as [->|]; [contradiction | reflexivity]. }
  destruct v; repeat split; apply K; simpl; auto 10.
Qed.

Lemma dispatch_unknown {W} {P : Platform W} v name args (s : State W) :
  ~ In name (map tool_name (tools v)) ->
  dispatch v name args s = (Throw (Error ("Unknown tool: " ++ name)), s).
Proof.
  intros H. apply not_in_catalog_eqb in H.
  destruct H as (H1 & H2 & H3 & H4 & H5 & H6 & H7 & H8).
  unfold dispatch. rewrite H1, H2, H3, H4, H5, H6, H7, H8. reflexivity.
Qed.

(** C3. The tool-call handler never raises: it always completes normally
    with an envelope.  When the dispatched operation returns, the envelope is
    its result.  When it throws, the envelope is the single text item
    "Error: <message>", where the message is: for a schema rejection the
    message of the ZodError; for an error of the session code, a run-time
    TypeError or an error raised by the engine, the message of that error;
    for a thrown value that is not an Error, its string rendering.  A name
    outside the catalog gives the single text item
    "Error: Unknown tool: <name>". *)
Theorem callTool_never_raises {W} {P : Platform W} v name args (s : State W) :
  exists envelope,
    callTool v name args s = (Normal envelope, snd (dispatch v name args s)) /\
    match fst (dispatch v name args s) with
    | Normal result => envelope = result
    | Throw (ZodError issues) =>
        envelope = [TextItem ("Error: " ++ zod_message issues)]
    | Throw (Error message) => envelope = [TextItem ("Error: " ++ message)]
    | Throw (TypeError message) => envelope = [TextItem ("Error: " ++ message)]
    | Throw (EngineError message) => envelope = [TextItem ("Error: " ++ message)]
    | Throw (ThrownValue rendering) => envelope = [TextItem ("Error: " ++ rendering)]
    end /\
    (~ In name (map tool_name (tools v)) ->
     envelope = [TextItem ("Error: Unknown tool: " ++ name)]).
Proof.
  unfold callTool, try_catch.
  destruct (dispatch v name args s) as [[result | error] s'] eqn:E; simpl.
  - exists result. split; [reflexivity | split; [reflexivity |]].
    intros H. rewrite dispatch_unknown in E by exact H. discriminate.
  - exists [TextItem ("Error: " ++ error_text error)].
    split; [reflexivity | split; [destruct error; reflexivity |]].
    intros H. rewrite dispatch_unknown in E by exact H.
    inversion E; subst. reflexivity.
Qed.

Lemma callTool_never_raises_witness :
  let launched := snd (callTool Http "puppeteer_launch" (JObject []) Toy.start) in
  (* a name outside the catalog *)
  callTool Http "puppeteer_reload" JUndefined Toy.start
  = (Normal [TextItem "Error: Unknown tool: puppeteer_reload"], Toy.start) /\
  (* a schema rejection *)
  fst (callTool Http "puppeteer_navigate" (JObject [("url", JString "not a url")])
         Toy.start)
  = Normal [TextItem "Error: url: Must be a valid URL"] /\
  (* an error of the session code *)
  fst (callTool Http "puppeteer_get_text" (JObject []) Toy.start)
  = Normal [TextItem "Error: Browser not launched. Use puppeteer_launch first."] /\
  (* a run-time TypeError *)
  fst (callTool Http "puppeteer_launch" JUndefined Toy.start)
  = Normal [TextItem "Error: Cannot read properties of undefined (reading 'headless')"] /\
  (* an error raised by the engine *)
  fst (callTool Http "puppeteer_click" (JObject [("selector", JString "#missing")])
         launched)
  = Normal [TextItem "Error: No element found for selector: #missing"] /\
  (* no failure *)
  fst (callTool Http "puppeteer_click" (JObject [("selector", JString "h1")]) launched)
  = Normal [TextItem "Clicked element: h1"].
Proof.
  intros launched.
  split.
  { destruct (@callTool_never_raises Toy.World Toy.platform Http "puppeteer_reload"
                JUndefined Toy.start) as (envelope & Hrun & _ & Hunknown).
    rewrite Hrun, Hunknown.
    - reflexivity.
    - simpl. intros H.
      repeat (destruct H as [H | H]; [discriminate H |]). exact H. }
  split; [| split; [| split; [| split]]].
  - destruct (@callTool_never_raises Toy.World Toy.platform Http "puppeteer_navigate"
                (JObject [("url", JString "not a url")]) Toy.start)
      as (envelope & Hrun & Hcase & _).
    rewrite Hrun. cbn [fst]. vm_compute in Hcase. rewrite Hcase. reflexivity.
  - destruct (@callTool_never_raises Toy.World Toy.platform Http "puppeteer_get_text"
                (JObject []) Toy.start)
      as (envelope & Hrun & Hcase & _).
    rewrite Hrun. cbn [fst]. vm_compute in Hcase. rewrite Hcase. reflexivity.
  - destruct (@callTool_never_raises Toy.World Toy.platform Http "puppeteer_launch"
                JUndefined Toy.start)
      as (envelope & Hrun & Hcase & _).
    rewrite Hrun. cbn [fst]. vm_compute in Hcase. rewrite Hcase. reflexivity.
  - destruct (@callTool_never_raises Toy.World Toy.platform Http "puppeteer_click"
                (JObject [("selector", JString "#missing")]) launched)
      as (envelope & Hrun & Hcase & _).
    rewrite Hrun. cbn [fst]. vm_compute in Hcase. rewrite Hcase. reflexivity.
  - destruct (@callTool_never_raises Toy.World Toy.platform Http "puppeteer_click"
                (JObject [("selector", JString "h1")]) launched)
      as (envelope & Hrun & Hcase & _).
    rewrite Hrun. cbn [fst]. vm_compute in Hcase. rewrite Hcase. reflexivity.
Defined.

(** ** Page operations without a browser *)

Lemma ensureBrowserAndPage_not_launched {W} {P : Platform W} (s : State W) :
  browser s = None ->
  ensureBrowserAndPage s
  = (Throw (Error "Browser not launched. Use puppeteer_launch first."), s).
Proof.
  intros H. unfold ensureBrowserAndPage, bind, get_browser. rewrite H. reflexivity.
Qed.

Lemma page_tool_dispatch {W} {P : Platform W} v t args :
  dispatch v (page_tool_name t) args
  = match t with
    | Navigate => navigate args
    | Screenshot => screenshot args
    | GetText => getText args
    | Click => click args
    | TypeText => type args
    | Evaluate => evaluate args
    end.
Proof. destruct t; reflexivity. Qed.

Ltac parse_accepts H :=
  match goal with
  | |- context [parse ?r] =>
      destruct r as [errs | a] eqn:?; [discriminate H | cbn [parse ret]]
  end.

(** C4. A page operation (navigate, screenshot, get_text, click, type,
    evaluate) called with arguments its schema accepts, while no browser
    handle is present, throws the error "Browser not launched. Use
    puppeteer_launch first.", whose message contains "not launched"; the
    handler turns it into the matching error envelope; and the state is left
    exactly as it was: no browser handle, no page handle, no engine call. *)
Theorem page_tool_before_launch {W} {P : Platform W} v t args (s : State W) :
  schema_accepts t args = true ->
  browser s = None ->
  let message := "Browser not launched. Use puppeteer_launch first." in
  contains "not launched" message = true /\
  dispatch v (page_tool_name t) args s = (Throw (Error message), s) /\
  callTool v (page_tool_name t) args s = (Normal [TextItem ("Error: " ++ message)], s).
Proof.
  intros Hacc Hb message.
  assert (Hd : dispatch v (page_tool_name t) args s = (Throw (Error message), s)).
  { rewrite page_tool_dispatch.
    destruct t; cbn [schema_accepts Zod.accepted] in Hacc;
      unfold navigate, screenshot, getText, click, type, evaluate;
      unfold bind at 1; parse_accepts Hacc;
      unfold bind at 1; rewrite (ensureBrowserAndPage_not_launched s Hb);
      reflexivity. }
  split; [reflexivity | split; [exact Hd |]].
  unfold callTool, try_catch. rewrite Hd. reflexivity.
Qed.

Lemma page_tool_before_launch_witness :
  callTool Stdio "puppeteer_click" (JObject [("selector", JString "h1")]) Toy.start
  = (Normal [TextItem "Error: Browser not launched. Use puppeteer_launch first."],
     Toy.start).
Proof.
  apply (@page_tool_before_launch Toy.World Toy.platform Stdio Click
           (JObject [("selector", JString "h1")]) Toy.start);
    reflexivity.
Defined.

(** ** The catalog *)

(** C9. Listing the tools is static and free of side effects: in either
    variant the handler returns the catalog from every state and leaves the
    state as it was.  Both variants return the same catalog.  It has exactly
    eight descriptors, named [puppeteer_] followed by launch, navigate,
    screenshot, get_text, click, type, evaluate, close, and their required
    fields are: navigate [url]; click [selector]; type [selector], [text];
    evaluate [script]; launch, screenshot, get_text and close none. *)
Theorem listTools_catalog :
  (forall W (s : State W) v, listTools v s = (Normal (tools v), s)) /\
  tools Stdio = tools Http /\
  (forall v,
     length (tools v) = 8%nat /\
     map (fun d => (tool_name d, required_fields d)) (tools v)
     = [ ("puppeteer_launch", []);
         ("puppeteer_navigate", ["url"]);
         ("puppeteer_screenshot", []);
         ("puppeteer_get_text", []);
         ("puppeteer_click", ["selector"]);
         ("puppeteer_type", ["selector"; "text"]);
         ("puppeteer_evaluate", ["script"]);
         ("puppeteer_close", []) ]).
Proof.
  split; [reflexivity | split; [reflexivity |]].
  intros []; split; reflexivity.
Qed.

(** ** Closing *)

Lemma closeBrowser_closed {W} {P : Platform W} (s : State W) :
  browser s = None ->
  closeBrowser s = (Normal [TextItem "Browser closed successfully"], s).
Proof.
  intros H. unfold closeBrowser, bind, get_browser. rewrite H. reflexivity.
Qed.

Lemma closeBrowser_open {W} {P : Platform W} (s : State W) b w' :
  browser s = Some b ->
  browser_close b (world s) = (Normal tt, w') ->
  closeBrowser s
  = (Normal [TextItem "Browser closed successfully"],
     {| browser := None; page := None; world := w';
        trace := (trace s ++ [CallBrowserClose b])%list |}).
Proof.
  intros Hb Hc.
  unfold closeBrowser, bind, get_browser, await_close, engine. rewrite Hb, Hc.
  reflexivity.
Qed.

(** When the engine fails to close the browser the handles stay. *)
Lemma closeBrowser_engine_failure {W} {P : Platform W} (s : State W) b t w' :
  browser s = Some b ->
  browser_close b (world s) = (Throw t, w') ->
  closeBrowser s = (Throw t, after_call s (CallBrowserClose b) w').
Proof.
  intros Hb Hc.
  unfold closeBrowser, bind, get_browser, await_close, engine. rewrite Hb, Hc.
  reflexivity.
Qed.

Lemma callTool_close {W} {P : Platform W} v args (s : State W) envelope s' :
  closeBrowser s = (Normal envelope, s') ->
  callTool v "puppeteer_close" args s = (Normal envelope, s').
Proof.
  intros H. unfold callTool, try_catch. cbn [dispatch String.eqb Ascii.eqb Bool.eqb].
  rewrite H. reflexivity.
Qed.

(** C7. Closing is idempotent at the interface.  With no browser open the
    close tool changes nothing in the session, calls nothing in the engine
    and returns the success confirmation.  With a browser open, once the
    engine has closed it, the tool has cleared both the browser and the page
    handle and returns the confirmation, and a second close right after
    returns the same confirmation from an unchanged state. *)
Theorem close_idempotent {W} {P : Platform W} v args (s : State W) :
  let confirmation := [TextItem "Browser closed successfully"] in
  (browser s = None ->
   callTool v "puppeteer_close" args s = (Normal confirmation, s)) /\
  (forall b w',
     browser s = Some b ->
     browser_close b (world s) = (Normal tt, w') ->
     let s' := {| browser := None; page := None; world := w';
                  trace := (trace s ++ [CallBrowserClose b])%list |} in
     callTool v "puppeteer_close" args s = (Normal confirmation, s') /\
     callTool v "puppeteer_close" args s' = (Normal confirmation, s')).
Proof.
  intros confirmation. split.
  - intros H. apply callTool_close, closeBrowser_closed, H.
  - intros b w' Hb Hc s'. split.
    + apply callTool_close, closeBrowser_open; assumption.
    + apply callTool_close, closeBrowser_closed. reflexivity.
Qed.

Lemma close_idempotent_witness :
  callTool Stdio "puppeteer_close" JUndefined Toy.start
  = (Normal [TextItem "Browser closed successfully"], Toy.start) /\
  let s := snd (callTool Stdio "puppeteer_launch" (JObject []) Toy.start) in
  let s' := {| browser := None; page := None;
               world := snd (Toy.close 0 (world s));
               trace := (trace s ++ [CallBrowserClose 0])%list |} in
  callTool Stdio "puppeteer_close" JUndefined s
  = (Normal [TextItem "Browser closed successfully"], s') /\
  callTool Stdio "puppeteer_close" JUndefined s'
  = (Normal [TextItem "Browser closed successfully"], s').
Proof.
  split.
  - apply (proj1 (@close_idempotent Toy.World Toy.platform Stdio JUndefined Toy.start)).
    reflexivity.
  - intros s s'.
    apply (proj2 (@close_idempotent Toy.World Toy.platform Stdio JUndefined s) 0%nat
                 (snd (Toy.close 0 (world s)))); reflexivity.
Defined.

(** ** Launching *)

Ltac trace_solve :=
  cbn [browser page world trace after_call];
  repeat rewrite <- app_assoc;
  first [ eexists; split; [reflexivity |]
        | exists []; split; [symmetry; apply app_nil_r |] ];
  cbn [app].



Ltac unit_answers :=
  repeat match goal with
         | u : unit |- _ => destruct u
         end.


(** A property read cannot throw on a value another property was read
    from, nor on a truthy value. *)
Ltac impossible_throw :=
  exfalso;
  match goal with
  | Ht : get_prop ?x _ = Throw _ |- _ =>
      destruct x; cbn [get_prop truthy] in *; discriminate
  end.





(** The same run, evaluated: the engine is asked for a headless browser and
    the answer says "headed". *)
Example launch_without_headless_run :
  let r := callTool Stdio "puppeteer_launch" (JObject []) Toy.start in
  fst r = Normal [TextItem "Browser launched successfully in headed mode"] /\
  trace (snd r)
  = [CallLaunch {| opt_headless := JBool true; opt_args := None;
                   opt_defaultViewport := None; opt_executablePath := None |};
     CallNewPage 0].
Proof. split; reflexivity. Qed.

(** A launch request that carries no arguments object at all: reading
    [args.headless] throws, after the open browser has been closed and
    before the engine is asked to launch. *)
Lemma launchBrowser_without_arguments {W} {P : Platform W} (s : State W) :
  browser s = None ->
  launchBrowser Stdio JUndefined s
  = (Throw (TypeError "Cannot read properties of undefined (reading 'headless')"), s).
Proof.
  intros H. unfold launchBrowser, close_if_open, bind, get_browser. rewrite H.
  reflexivity.
Qed.

(** [launchBrowser] never clears the browser handle, whatever happens. *)
Lemma launchBrowser_keeps_browser_handle {W} {P : Platform W} v args (s : State W) :
  browser s <> None -> browser (snd (launchBrowser v args s)) <> None.
Proof.
  intros H.
  apply (wp_final _ (fun s' => browser s' <> None)).
  wp_unfold. wp_go.
  all: cbn [browser page world trace after_call] in *; congruence.
Qed.

(** When [launchBrowser] throws, the page handle is the one it started
    with. *)
Lemma launchBrowser_throw_keeps_page {W} {P : Platform W} v args (s : State W) t s' :
  launchBrowser v args s = (Throw t, s') -> page s' = page s.
Proof.
  intros E.
  assert (Hwp : wp (launchBrowser v args) (fun _ _ => True)
                   (fun _ s'' => page s'' = page s) s).
  { wp_unfold. wp_go.
    all: cbn [browser page world trace after_call] in *; try congruence; auto. }
  apply (wp_elim _ _ _ _ _ _ Hwp E).
Qed.

(** With both handles present [ensureBrowserAndPage] does nothing: it never
    asks the engine whether the browser behind the handle is still open. *)
Lemma ensureBrowserAndPage_ready {W} {P : Platform W} (s : State W) b p :
  browser s = Some b -> page s = Some p ->
  ensureBrowserAndPage s = (Normal tt, s).
Proof.
  intros Hb Hp. unfold ensureBrowserAndPage, bind, get_browser, get_page.
  rewrite Hb, Hp. reflexivity.
Qed.

(** C2. A launch whose engine launch fails after the open browser has been
    closed does not leave the session without a browser handle: on the small
    engine, after a first launch, a second launch that the engine refuses
    keeps both stale handles, and the get_text that follows is not refused
    with "Browser not launched" but goes to the engine with the stale page
    handle and comes back with the engine's own error. *)
Theorem failed_relaunch_keeps_stale_handles :
  forall v,
    let run := serve v [ ("puppeteer_launch", JObject []);
                         ("puppeteer_launch", JObject []);
                         ("puppeteer_get_text", JObject []) ] Toy.start in
    fst run = [ Normal [TextItem "Browser launched successfully in headed mode"];
                Normal [TextItem "Error: Failed to launch the browser process!"];
                Normal [TextItem "Error: Protocol error: Target closed"] ] /\
    browser (snd run) = Some 0%nat /\
    page (snd run) = Some 1%nat /\
    Toy.open_browsers (world (snd run)) = [] /\
    skipn 2 (trace (snd run))
    = [ CallBrowserClose 0;
        CallLaunch (match v with
                    | Stdio => {| opt_headless := JBool true; opt_args := None;
                                  opt_defaultViewport := None;
                                  opt_executablePath := None |}
                    | Http => {| opt_headless := JBool true;
                                 opt_args := Some ["--no-sandbox"; "--disable-setuid-sandbox"];
                                 opt_defaultViewport := None;
                                 opt_executablePath :=
                                   Some (JString "/usr/bin/chromium-browser") |}
                    end);
        CallBodyText 1 ].
Proof.
  intros []; repeat split; reflexivity.
Qed.

(** ** Screenshots *)

(** What reaches the engine as [quality]: the validated quality when the
    format is jpeg and the quality is given and not zero. *)
Lemma screenshot_options_quality (a : ScreenshotArgs) (q : Q) :
  so_quality (screenshot_options a) = Some q <->
  shot_format a = jpeg /\ shot_quality a = Some q /\ Qeq_bool q 0 = false.
Proof.
  unfold screenshot_options; cbn [so_quality].
  destruct (shot_format a); destruct (shot_quality a) as [q' |]; cbn [quality_truthy truthy].
  all: try (split; [discriminate | intros (? & ? & ?); discriminate]).
  destruct (Qeq_bool q' 0) eqn:E; cbn [negb]; split.
  - discriminate.
  - intros (_ & Hq & Hz). inversion Hq; subst. congruence.
  - intros Hq. inversion Hq; subst. auto.
  - intros (_ & Hq & _). exact Hq.
Qed.

(** The options of the one screenshot call are [screenshot_options] of the
    validated arguments. *)
Lemma screenshot_call {W} {P : Platform W} args a (s s1 : State W) p :
  ScreenshotSchema args = inr a ->
  ensureBrowserAndPage s = (Normal tt, s1) ->
  page s1 = Some p ->
  trace (snd (screenshot args s))
  = (trace s1 ++ [CallScreenshot p (screenshot_options a)])%list.
Proof.
  intros Ha He Hp.
  unfold screenshot. unfold bind at 1. rewrite Ha. cbn [parse ret].
  unfold bind at 1. rewrite He.
  unfold bind at 1. unfold this_page, bind at 1, get_page. rewrite Hp. cbn [ret].
  unfold bind, await_screenshot, engine.
  destruct (page_screenshot p (screenshot_options a) (world s1)) as [[[data|]|t] w'];
    reflexivity.
Qed.

(** C1. A screenshot call with format jpeg and quality 0 passes validation
    with quality 0, and the quality is not forwarded: the options of the
    engine call carry no quality. *)
Theorem screenshot_jpeg_quality_zero_not_forwarded {W} {P : Platform W} b p (w : W) tr :
  let args := JObject [("format", JString "jpeg"); ("quality", JNumber 0)] in
  ScreenshotSchema args
  = inr {| shot_fullPage := false; shot_format := jpeg; shot_quality := Some 0%Q |} /\
  trace (snd (screenshot args {| browser := Some b; page := Some p;
                                 world := w; trace := tr |}))
  = (tr ++ [CallScreenshot p {| so_fullPage := false; so_type := jpeg;
                                so_quality := None |}])%list.
Proof.
  intros args. split; [reflexivity |].
  set (s := {| browser := Some b; page := Some p; world := w; trace := tr |}).
  rewrite (screenshot_call args _ s s p eq_refl eq_refl eq_refl).
  reflexivity.
Qed.

(** ** Validation *)

Lemma navigate_rejects_invalid_url {W} {P : Platform W} props u :
  own_prop "url" props = JString u ->
  valid_URL u = false ->
  schema_accepts Navigate (JObject props) = false.
Proof.
  intros Hu Hv.
  cbn [schema_accepts]. unfold NavigateSchema, Zod.field, Zod.string_url.
  rewrite Hu, Hv.
  destruct (Zod.optional_default _ _ _ _); reflexivity.
Qed.

Lemma number_min_max_rejects lo hi path q :
  (q < lo \/ hi < q)%Q ->
  exists errs, Zod.number_min_max lo hi path (JNumber q) = inl errs.
Proof.
  intros H. unfold Zod.number_min_max.
  destruct (Qle_bool lo q) eqn:E1; destruct (Qle_bool q hi) eqn:E2; cbn [app]; eauto.
  apply Qle_bool_iff in E1, E2.
  destruct H as [H | H]; apply Qlt_not_le in H; contradiction.
Qed.

Lemma screenshot_rejects_quality_out_of_range {W} {P : Platform W} props q :
  own_prop "quality" props = JNumber q ->
  (q < 0 \/ 100 < q)%Q ->
  schema_accepts Screenshot (JObject props) = false.
Proof.
  intros Hq Hrange.
  cbn [schema_accepts]. unfold ScreenshotSchema, Zod.field.
  rewrite Hq. cbn [Zod.optional].
  destruct (number_min_max_rejects 0 100 ["quality"] q Hrange) as [errs ->].
  destruct (Zod.optional_default Zod.boolean false _ _);
    destruct (Zod.optional_default _ _ _ _); reflexivity.
Qed.

(** A quality that passed validation lies in [0, 100]. *)
Lemma ScreenshotSchema_quality_range args a q :
  ScreenshotSchema args = inr a ->
  shot_quality a = Some q ->
  (0 <= q /\ q <= 100)%Q.
Proof.
  unfold ScreenshotSchema, Zod.field. destruct args; try discriminate.
  destruct (Zod.optional_default Zod.boolean false _ _); [discriminate |].
  destruct (Zod.optional_default _ _ _ _); [discriminate |].
  unfold Zod.optional, Zod.number_min_max.
  destruct (own_prop "quality" props); try discriminate.
  - intros H; inversion H; subst. discriminate.
  - destruct (Qle_bool 0 q0) eqn:E1; destruct (Qle_bool q0 100) eqn:E2;
      cbn [app]; try discriminate.
    intros H; inversion H; subst. cbn [shot_quality].
    intros Hq; inversion Hq; subst.
    split; apply Qle_bool_iff; assumption.
Qed.

(** Arguments that do not conform to the [inputSchema] a page tool
    advertises are rejected by the schema the tool parses with. *)
Lemma advertised_schema_violation_is_rejected {W} {P : Platform W} v t d args :
  descriptor_of v (page_tool_name t) = Some d ->
  conforms d args = false ->
  schema_accepts t args = false.
Proof.
  intros Hd Hc.
  destruct (schema_accepts t args) eqn:Ha; [exfalso | reflexivity].
  assert (Hd' : descriptor_of Stdio (page_tool_name t) = Some d)
    by (destruct v; exact Hd).
  clear Hd. revert Hc.
  destruct t; cbn in Hd'; inversion Hd'; subst d; clear Hd';
    cbn [schema_accepts] in Ha;
    unfold NavigateSchema, ScreenshotSchema, GetTextSchema, ClickSchema, TypeSchema,
      EvaluateSchema, Zod.field, Zod.string_url, Zod.string, Zod.optional_default,
      Zod.optional, Zod.enum, Zod.boolean, Zod.number_min_max in Ha;
    (destruct args; try discriminate Ha);
    unfold conforms, required_fields, property_conforms;
    cbn -[Qle_bool] in *.
  all: repeat match goal with
         | H : context [match own_prop ?k ?p with _ => _ end] |- _ =>
             destruct (own_prop k p); cbn -[Qle_bool] in *; try discriminate H
         end.
  all: try (intros; discriminate).
  all: repeat match goal with
         | H : context [if ?c then _ else _] |- _ =>
             destruct c; cbn -[Qle_bool] in *; try discriminate H
         end.
  all: try (intros; discriminate).
Qed.

Example conforms_navigate :
  option_map (fun d => (conforms d (JObject [("url", JString "https://example.com")]),
                        conforms d (JObject [("url", JNumber 5)]),
                        conforms d (JObject [("waitUntil", JString "load")])))
             (descriptor_of Http "puppeteer_navigate")
  = Some (true, false, false).
Proof. reflexivity. Qed.

(** C5, as the code has it.  For each of the six tools that parse their
    arguments with a schema (navigate, screenshot, get_text, click, type,
    evaluate), arguments the schema rejects make the call throw the schema's
    error before anything else happens: the handler answers with the error
    envelope of that rejection and the state (both handles, the world, the
    list of engine calls) is exactly what it was, with or without a browser
    launched. *)
Theorem schema_rejection_before_session {W} {P : Platform W} v t args (s : State W) :
  schema_accepts t args = false ->
  dispatch v (page_tool_name t) args s = (Throw (ZodError (schema_issues t args)), s) /\
  callTool v (page_tool_name t) args s
  = (Normal [TextItem ("Error: " ++ zod_message (schema_issues t args))], s).
Proof.
  intros Hrej.
  assert (Hd : dispatch v (page_tool_name t) args s
               = (Throw (ZodError (schema_issues t args)), s)).
  { rewrite page_tool_dispatch.
    destruct t; cbn [schema_accepts schema_issues] in *;
      unfold navigate, screenshot, getText, click, type, evaluate;
      unfold bind at 1;
      match goal with
      | |- context [parse ?r] => destruct r as [errs | a]
      end;
      first [ reflexivity | discriminate Hrej ]. }
  split; [exact Hd |].
  unfold callTool, try_catch. rewrite Hd. reflexivity.
Qed.

Lemma schema_rejection_before_session_witness :
  callTool Stdio "puppeteer_navigate" (JObject [("url", JString "not a url")]) Toy.start
  = (Normal [TextItem "Error: url: Must be a valid URL"], Toy.start).
Proof.
  apply (@schema_rejection_before_session Toy.World Toy.platform Stdio Navigate
           (JObject [("url", JString "not a url")]) Toy.start).
  reflexivity.
Defined.

(** The launch tool has no schema to parse with: arguments that do not
    conform to the [inputSchema] it advertises ([headless] is declared a
    boolean) are not rejected, and the browser is launched with them. *)
Lemma launch_arguments_not_validated :
  let args := JObject [("headless", JString "yes")] in
  let r := callTool Stdio "puppeteer_launch" args Toy.start in
  option_map (fun d => conforms d args) (descriptor_of Stdio "puppeteer_launch")
  = Some false /\
  fst r = Normal [TextItem "Browser launched successfully in headless mode"] /\
  browser (snd r) = Some 0%nat /\
  page (snd r) = Some 1%nat /\
  trace (snd r)
  = [CallLaunch {| opt_headless := JString "yes"; opt_args := None;
                   opt_defaultViewport := None; opt_executablePath := None |};
     CallNewPage 0] /\
  snd r <> Toy.start.
Proof.
  repeat split; try reflexivity.
  intros H. apply (f_equal browser) in H. discriminate H.
Qed.

(** ** Reading text *)

(** After a successful [ensureBrowserAndPage] both handles are present. *)
Lemma ensureBrowserAndPage_success {W} {P : Platform W} (s s1 : State W) :
  ensureBrowserAndPage s = (Normal tt, s1) ->
  exists b p, browser s1 = Some b /\ page s1 = Some p.
Proof.
  intros E.
  assert (Hwp : wp ensureBrowserAndPage
                   (fun _ s' => exists b p, browser s' = Some b /\ page s' = Some p)
                   (fun _ _ => True) s).
  { wp_unfold. wp_go; cbn [browser page world trace after_call]; eauto. }
  apply (wp_elim _ _ _ _ _ _ Hwp E).
Qed.



Lemma callTool_get_text {W} {P : Platform W} v args (s : State W) :
  callTool v "puppeteer_get_text" args s
  = match getText args s with
    | (Normal envelope, s') => (Normal envelope, s')
    | (Throw error, s') => (Normal [TextItem ("Error: " ++ error_text error)], s')
    end.
Proof. reflexivity. Qed.




(** ** Further properties of the session core *)

(** *** No engine call on a browser or page before a launch *)

Lemma launched_first_seen calls : launched_first true calls = true.
Proof.
  induction calls as [|c rest IH]; cbn [launched_first]; [reflexivity |].
  destruct (is_launch c); [exact IH |].
  rewrite IH, orb_true_r. reflexivity.
Qed.

Lemma launched_first_snoc seen calls c :
  launched_first seen (calls ++ [c])
  = launched_first seen calls
    && (negb (needs_browser c) || seen || existsb is_launch calls).
Proof.
  revert seen. induction calls as [|c' rest IH]; intros seen; cbn [app launched_first existsb].
  - destruct c, seen; reflexivity.
  - destruct (is_launch c') eqn:E; cbn [orb].
    + rewrite launched_first_seen, launched_first_seen, orb_true_r. reflexivity.
    + rewrite IH. destruct (negb (needs_browser c') || seen); cbn [andb]; reflexivity.
Qed.

Lemma launched_first_split calls :
  launched_first false calls = true ->
  forall pre c post,
    calls = (pre ++ c :: post)%list ->
    needs_browser c = true ->
    exists o, In (CallLaunch o) pre.
Proof.
  induction calls as [|c' rest IH]; intros H pre c post E Hc.
  - destruct pre; discriminate E.
  - destruct pre as [|c0 pre']; cbn [app] in E; inversion E; subst; clear E.
    + cbn [launched_first] in H. destruct c; try discriminate Hc; discriminate H.
    + cbn [launched_first] in H. destruct (is_launch c0) eqn:E0.
      * destruct c0; try discriminate E0. eexists; left; reflexivity.
      * apply andb_prop in H. destruct H as [_ H].
        destruct (IH H pre' c post eq_refl Hc) as [o Ho].
        exists o; right; exact Ho.
Qed.

Ltac ordered_solve :=
  unfold Ordered, session_ok, after_call in *;
  cbn [browser page world trace] in *;
  repeat match goal with
         | H : _ /\ _ |- _ => destruct H
         end;
  repeat rewrite launched_first_snoc;
  repeat rewrite existsb_app;
  cbn [existsb is_launch needs_browser negb orb andb];
  repeat match goal with
         | H : ?b <> None -> existsb is_launch ?tr = true, E : ?b = Some _ |- _ =>
             let K := fresh "K" in
             assert (K : existsb is_launch tr = true) by (apply H; congruence);
             clear H
         end;
  repeat match goal with
         | K : ?x = true |- _ => rewrite K
         end;
  cbn [orb andb];
  rewrite ?orb_true_r, ?andb_true_r;
  repeat split; try reflexivity; try congruence; auto.

Lemma callTool_ordered {W} {P : Platform W} v name args (s : State W) :
  Ordered s ->
  wp (callTool v name args) (fun _ s' => Ordered s') (fun _ s' => Ordered s') s.
Proof.
  intros H. wp_unfold. wp_go.
  all: ordered_solve.
Qed.

Lemma serve_ordered {W} {P : Platform W} v (requests : list (string * JsValue)) :
  forall s : State W, Ordered s -> Ordered (snd (serve v requests s)).
Proof.
  induction requests as [|[name args] rest IH]; intros s H; cbn [serve].
  - exact H.
  - pose proof (callTool_ordered v name args s H) as H1. apply wp_final in H1.
    destruct (callTool v name args s) as [r s1]. cbn [snd] in H1.
    specialize (IH s1 H1).
    destruct (serve v rest s1) as [rs s2]. exact IH.
Qed.

(** X1. In any run of tool calls from the initial state, an engine call on
    a browser or on a page (close, newPage and every page call) is preceded
    by a launch call. *)
Theorem no_engine_call_before_launch {W} {P : Platform W} v requests (w : W)
        pre c post :
  trace (snd (serve v requests (initial w))) = (pre ++ c :: post)%list ->
  needs_browser c = true ->
  exists o, In (CallLaunch o) pre.
Proof.
  intros E Hc.
  assert (H0 : Ordered (initial w)).
  { unfold Ordered, session_ok, initial; cbn. repeat split; congruence. }
  pose proof (serve_ordered v requests (initial w) H0) as (H & _ & _).
  exact (launched_first_split _ H pre c post E Hc).
Qed.

Lemma no_engine_call_before_launch_witness :
  exists o,
    In (CallLaunch o)
       [CallLaunch {| opt_headless := JBool true; opt_args := None;
                      opt_defaultViewport := None; opt_executablePath := None |};
        CallNewPage 0].
Proof.
  apply (@no_engine_call_before_launch Toy.World Toy.platform Stdio
           [("puppeteer_get_text", JObject []); ("puppeteer_launch", JObject []);
            ("puppeteer_get_text", JObject [])]
           Toy.world1 _ (CallBodyText 1) []).
  - reflexivity.
  - reflexivity.
Defined.

(** *** Launching *)

Ltac close_trace :=
  cbn [browser page world trace after_call];
  repeat rewrite <- app_assoc; cbn [app]; try reflexivity.

(** X2. What a launch that returns has done.  The browser that was open,
    if any, was closed without error; in the hosted mode of the HTTP variant
    the chromium executable was looked up; then the engine was asked once to
    launch and answered with a browser, and was asked once for a new page on
    that browser and answered with a page.  The session holds exactly that
    browser and that page, the world is the one the engine left, and these
    are all the calls made, in this order.  The engine received the raw
    [headless] value, or [true] when it was undefined or null, while the
    confirmation says "headless" exactly when the raw value is truthy. *)
Theorem launchBrowser_success {W} {P : Platform W} v args (s s' : State W) envelope :
  launchBrowser v args s = (Normal envelope, s') ->
  exists o b w1 w2 p headless,
    closes_cleanly s /\
    lookup_succeeds v (world_after_close s) w1 /\
    puppeteer_launch o w1 = (Normal b, w2) /\
    browser_newPage b w2 = (Normal p, world s') /\
    browser s' = Some b /\
    page s' = Some p /\
    trace s'
    = (trace s ++ closing_calls s ++ lookup_calls v
       ++ [CallLaunch o; CallNewPage b])%list /\
    get_prop args "headless" = Normal headless /\
    opt_headless o = nullish_coalesce headless (JBool true) /\
    envelope = [TextItem ("Browser launched successfully in "
                          ++ (if truthy headless then "headless" else "headed")
                          ++ " mode")].
Proof.
  intros E.
  assert (Hwp : wp (launchBrowser v args)
                   (fun envelope s' =>
                      exists o b w1 w2 p headless,
                        closes_cleanly s /\
                        lookup_succeeds v (world_after_close s) w1 /\
                        puppeteer_launch o w1 = (Normal b, w2) /\
                        browser_newPage b w2 = (Normal p, world s') /\
                        browser s' = Some b /\
                        page s' = Some p /\
                        trace s'
                        = (trace s ++ closing_calls s ++ lookup_calls v
                           ++ [CallLaunch o; CallNewPage b])%list /\
                        get_prop args "headless" = Normal headless /\
                        opt_headless o = nullish_coalesce headless (JBool true) /\
                        envelope
                        = [TextItem ("Browser launched successfully in "
                                     ++ (if truthy headless then "headless" else "headed")
                                     ++ " mode")])
                   (fun _ _ => True) s).
  { unfold closes_cleanly, world_after_close, lookup_succeeds, closing_calls, lookup_calls.
    wp_unfold. wpx_go.
    all: try exact I.
    all: try discriminate.
    all: unit_answers;
      cbn [browser page world trace after_call] in *;
      repeat match goal with
             | E : ?f = (_, _) |- context [?f] => rewrite E
             end;
      cbn [fst snd];
      do 6 eexists;
      repeat match goal with
             | |- _ /\ _ => split
             end;
      try eassumption; try reflexivity;
      try (eexists; eassumption);
      try (eexists; reflexivity);
      try (repeat rewrite <- app_assoc; reflexivity). }
  exact (wp_elim _ _ _ _ _ _ Hwp E).
Qed.

Lemma launchBrowser_success_witness :
  let s := snd (callTool Http "puppeteer_launch" (JObject [])
                  (initial (Toy.fresh_world 2 [] None))) in
  let args := JObject [("headless", JBool false)] in
  let s' := snd (launchBrowser Http args s) in
  exists o b w1 w2 p headless,
    closes_cleanly s /\
    lookup_succeeds Http (world_after_close s) w1 /\
    puppeteer_launch o w1 = (Normal b, w2) /\
    browser_newPage b w2 = (Normal p, world s') /\
    browser s' = Some b /\
    page s' = Some p /\
    trace s'
    = (trace s ++ closing_calls s ++ lookup_calls Http
       ++ [CallLaunch o; CallNewPage b])%list /\
    get_prop args "headless" = Normal headless /\
    opt_headless o = nullish_coalesce headless (JBool true) /\
    [TextItem "Browser launched successfully in headed mode"]
    = [TextItem ("Browser launched successfully in "
                 ++ (if truthy headless then "headless" else "headed") ++ " mode")].
Proof.
  intros s args s'.
  apply (@launchBrowser_success Toy.World Toy.platform Http args s s'
           [TextItem "Browser launched successfully in headed mode"]).
  reflexivity.
Defined.

(** X3. What a launch that throws leaves behind.  The page handle is the
    one the session had.  If the launch never got as far as asking for a new
    page, the browser handle is also the one the session had (even when that
    browser has just been closed).  Otherwise the engine had launched a
    browser and then refused the new page with the error thrown: the session
    holds that new browser, next to the old page handle. *)
Theorem launchBrowser_failure {W} {P : Platform W} v args (s s' : State W) t :
  launchBrowser v args s = (Throw t, s') ->
  page s' = page s /\
  exists calls,
    trace s' = (trace s ++ calls)%list /\
    ((forall b, ~ In (CallNewPage b) calls) /\ browser s' = browser s
     \/
     exists o b w1 w2 pre,
       calls = (pre ++ [CallLaunch o; CallNewPage b])%list /\
       puppeteer_launch o w1 = (Normal b, w2) /\
       browser_newPage b w2 = (Throw t, world s') /\
       browser s' = Some b).
Proof.
  intros E.
  assert (Hwp : wp (launchBrowser v args) (fun _ _ => True)
                   (fun t s' =>
                      page s' = page s /\
                      exists calls,
                        trace s' = (trace s ++ calls)%list /\
                        ((forall b, ~ In (CallNewPage b) calls) /\ browser s' = browser s
                         \/
                         exists o b w1 w2 pre,
                           calls = (pre ++ [CallLaunch o; CallNewPage b])%list /\
                           puppeteer_launch o w1 = (Normal b, w2) /\
                           browser_newPage b w2 = (Throw t, world s') /\
                           browser s' = Some b)) s).
  { wp_unfold. wpx_go.
    all: try exact I.
    all: try discriminate.
    all: cbn [browser page world trace after_call] in *;
      (split; [congruence |]);
      trace_solve;
      first [ left; split;
              [ intros b0 Hin; cbn [In] in Hin;
                repeat (destruct Hin as [Hin | Hin]; [discriminate Hin |]);
                exact Hin
              | congruence ]
            | right; do 4 eexists;
              first [ exists []; split; [reflexivity |]
                    | eexists [_]; split; [reflexivity |]
                    | eexists [_; _]; split; [reflexivity |] ];
              (split; [eassumption |]); (split; [eassumption |]); reflexivity ]. }
  exact (wp_elim _ _ _ _ _ _ Hwp E).
Qed.

Lemma launchBrowser_failure_witness :
  let s' := snd (@launchBrowser _ (toy_variant None true false) Stdio (JObject [])
                   Toy.start) in
  page s' = None /\
  exists calls,
    trace s' = ([] ++ calls)%list /\
    ((forall b, ~ In (CallNewPage b) calls) /\ browser s' = None
     \/
     exists o b w1 w2 pre,
       calls = (pre ++ [CallLaunch o; CallNewPage b])%list /\
       @puppeteer_launch _ (toy_variant None true false) o w1 = (Normal b, w2) /\
       @browser_newPage _ (toy_variant None true false) b w2
       = (Throw (EngineError "Protocol error: Target closed"), world s') /\
       browser s' = Some b).
Proof.
  intros s'.
  apply (@launchBrowser_failure Toy.World (toy_variant None true false) Stdio
           (JObject []) Toy.start s' (EngineError "Protocol error: Target closed")).
  reflexivity.
Defined.

(** The same run, evaluated: the engine launched browser 0 and refused the
    page, and the session is left with browser 0 and no page. *)
Example launch_newPage_refused_run :
  let s' := snd (@launchBrowser _ (toy_variant None true false) Stdio (JObject [])
                   Toy.start) in
  browser s' = Some 0%nat /\ page s' = None /\
  trace s'
  = [CallLaunch {| opt_headless := JBool true; opt_args := None;
                   opt_defaultViewport := None; opt_executablePath := None |};
     CallNewPage 0].
Proof. repeat split; reflexivity. Qed.

(** X4. When the engine fails to close the browser that is open, the launch
    stops there: nothing is launched, the handles stay, and the tool answers
    with the engine's error. *)
Theorem launch_stops_when_close_fails {W} {P : Platform W} v args (s : State W) b t w' :
  browser s = Some b ->
  browser_close b (world s) = (Throw t, w') ->
  callTool v "puppeteer_launch" args s
  = (Normal [TextItem ("Error: " ++ error_text t)], after_call s (CallBrowserClose b) w').
Proof.
  intros Hb Hc.
  unfold callTool, try_catch. cbn [dispatch String.eqb Ascii.eqb Bool.eqb].
  unfold launchBrowser. unfold bind at 1.
  unfold close_if_open, bind, get_browser, await_close, engine.
  rewrite Hb, Hc. reflexivity.
Qed.

Lemma launch_stops_when_close_fails_witness :
  let s := snd (@callTool _ (toy_variant None false true) Stdio "puppeteer_launch"
                  (JObject []) Toy.start) in
  @callTool _ (toy_variant None false true) Http "puppeteer_launch" (JObject []) s
  = (Normal [TextItem "Error: Protocol error: Connection closed"],
     after_call s (CallBrowserClose 0) (world s)).
Proof.
  intros s.
  apply (@launch_stops_when_close_fails Toy.World (toy_variant None false true) Http
           (JObject []) s 0%nat (EngineError "Protocol error: Connection closed")
           (world s));
    reflexivity.
Defined.

(** X5. The viewport handed to the engine.  When the arguments carry a
    truthy [viewport], every launch call has as [defaultViewport] the object
    with its [width] and [height], a missing or zero (falsy) one replaced by
    1280 and 720; this also replaces the chromium default of the hosted mode.
    Otherwise [defaultViewport] is the chromium one in the hosted mode of the
    HTTP variant and absent elsewhere. *)
Theorem launch_viewport {W} {P : Platform W} v args viewport (s : State W) :
  get_prop args "viewport" = Normal viewport ->
  exists calls,
    trace (snd (launchBrowser v args s)) = (trace s ++ calls)%list /\
    forall o, In (CallLaunch o) calls ->
      if truthy viewport then
        exists width height,
          get_prop viewport "width" = Normal width /\
          get_prop viewport "height" = Normal height /\
          opt_defaultViewport o
          = Some (JObject [("width", logical_or width (JNumber 1280));
                           ("height", logical_or height (JNumber 720))])
      else
        opt_defaultViewport o
        = match v with
          | Stdio => None
          | Http => if is_production NODE_ENV then Some chromium_defaultViewport else None
          end.
Proof.
  intros H.
  apply (wp_final (launchBrowser v args)
           (fun s' =>
              exists calls,
                trace s' = (trace s ++ calls)%list /\
                forall o, In (CallLaunch o) calls ->
                  if truthy viewport then
                    exists width height,
                      get_prop viewport "width" = Normal width /\
                      get_prop viewport "height" = Normal height /\
                      opt_defaultViewport o
                      = Some (JObject [("width", logical_or width (JNumber 1280));
                                       ("height", logical_or height (JNumber 720))])
                  else
                    opt_defaultViewport o
                    = match v with
                      | Stdio => None
                      | Http => if is_production NODE_ENV
                                then Some chromium_defaultViewport else None
                      end)).
  wp_unfold.
  repeat (cbn [browser page world trace after_call];
          first [ rewrite H; cbv beta iota | wp_step ]).
  all: trace_solve.
  all: intros o Hin; cbn [In] in Hin;
    repeat (destruct Hin as [Hin | Hin]; [try discriminate Hin |]);
    try contradiction.
  all: inversion Hin; subst; cbn [opt_defaultViewport];
    first [ reflexivity | do 2 eexists; repeat split; reflexivity ].
Qed.

Lemma launch_viewport_witness :
  exists calls,
    trace (snd (launchBrowser Stdio
                  (JObject [("viewport", JObject [("width", JNumber 0);
                                                  ("height", JNumber 600)])])
                  Toy.start))
    = ([] ++ calls)%list /\
    forall o, In (CallLaunch o) calls ->
      exists width height,
        Normal (JNumber 0) = Normal width /\
        Normal (JNumber 600) = Normal height /\
        opt_defaultViewport o
        = Some (JObject [("width", logical_or width (JNumber 1280));
                         ("height", logical_or height (JNumber 720))]).
Proof.
  apply (@launch_viewport Toy.World Toy.platform Stdio
           (JObject [("viewport", JObject [("width", JNumber 0);
                                           ("height", JNumber 600)])])
           (JObject [("width", JNumber 0); ("height", JNumber 600)]) Toy.start).
  reflexivity.
Defined.

(** *** The executable handed to the engine *)

Lemma find_first {A} (f : A -> bool) (l : list A) :
  match find f l with
  | Some x =>
      exists before after,
        l = (before ++ x :: after)%list /\ f x = true /\
        Forall (fun y => f y = false) before
  | None => Forall (fun y => f y = false) l
  end.
Proof.
  induction l as [|a l IH]; cbn [find].
  - constructor.
  - destruct (f a) eqn:E.
    + exists [], l. repeat split; [exact E | constructor].
    + destruct (find f l) as [x |].
      * destruct IH as (before & after & -> & Hx & Hb).
        exists (a :: before), after. repeat split; [exact Hx |].
        constructor; assumption.
      * constructor; assumption.
Qed.

Lemma chromePaths_truthy path :
  In path chromePaths -> negb (String.eqb path "") = true.
Proof.
  cbn [chromePaths In]. intros H.
  repeat (destruct H as [<- | H]; [reflexivity |]). contradiction.
Qed.

Ltac local_options_solve :=
  let o := fresh "o" in
  let Hin := fresh "Hin" in
  intros o Hin; cbn [In] in Hin;
  repeat (destruct Hin as [Hin | Hin]; [try discriminate Hin |]);
  try contradiction;
  inversion Hin; subst; cbn [opt_args opt_executablePath];
  (split; [reflexivity |]);
  unfold find_executablePath;
  match goal with
  | |- context [find ?f chromePaths] =>
      let Hfind := fresh "Hfind" in
      let path := fresh "path" in
      pose proof (find_first f chromePaths) as Hfind;
      destruct (find f chromePaths) as [path |];
      cbv beta iota;
      [ rewrite (chromePaths_truthy path)
          by (destruct Hfind as (? & ? & -> & _); apply in_elt);
        cbv beta iota;
        destruct Hfind as (before & after & Hsplit & Hx & Hbefore);
        exists before, path, after; repeat split; assumption
      | exact Hfind ]
  end.

(** X6. Outside the hosted mode the HTTP variant, once the browser that was
    open (if any) has been closed, launches with the flags [--no-sandbox] and
    [--disable-setuid-sandbox] and with, as executable, the first of the five
    chrome paths that exists on the machine at that moment; it names no
    executable when none of them exists.  That launch call is made whenever
    the arguments are an object and the closing, if any, went without
    error. *)
Theorem launch_local_executable {W} {P : Platform W} args (s : State W) :
  is_production NODE_ENV = false ->
  exists calls,
    trace (snd (launchBrowser Http args s)) = (trace s ++ calls)%list /\
    (forall o, In (CallLaunch o) calls ->
       opt_args o = Some ["--no-sandbox"; "--disable-setuid-sandbox"] /\
       match opt_executablePath o with
       | Some e =>
           exists before path after,
             e = JString path /\
             chromePaths = (before ++ path :: after)%list /\
             fs_existsSync path (world_after_close s) = true /\
             Forall (fun earlier => fs_existsSync earlier (world_after_close s) = false)
                    before
       | None =>
           Forall (fun path => fs_existsSync path (world_after_close s) = false)
                  chromePaths
       end) /\
    (forall headless,
       get_prop args "headless" = Normal headless ->
       closes_cleanly s ->
       exists o, In (CallLaunch o) calls).
Proof.
  intros Hdev.
  apply (wp_final (launchBrowser Http args)
           (fun s' =>
              exists calls,
                trace s' = (trace s ++ calls)%list /\
                (forall o, In (CallLaunch o) calls ->
                   opt_args o = Some ["--no-sandbox"; "--disable-setuid-sandbox"] /\
                   match opt_executablePath o with
                   | Some e =>
                       exists before path after,
                         e = JString path /\
                         chromePaths = (before ++ path :: after)%list /\
                         fs_existsSync path (world_after_close s) = true /\
                         Forall (fun earlier =>
                                   fs_existsSync earlier (world_after_close s) = false)
                                before
                   | None =>
                       Forall (fun path =>
                                 fs_existsSync path (world_after_close s) = false)
                              chromePaths
                   end) /\
                (forall headless,
                   get_prop args "headless" = Normal headless ->
                   closes_cleanly s ->
                   exists o, In (CallLaunch o) calls))).
  unfold world_after_close, closes_cleanly.
  wp_unfold.
  repeat (cbn [browser page world trace after_call];
          first [ rewrite Hdev; cbv beta iota | wpx_step ]).
  all: unit_answers;
    cbn [browser page world trace after_call] in *;
    repeat match goal with
           | E : browser_close ?h ?w = (_, _) |- _ => rewrite E; clear E
           end;
    cbn [fst snd].
  all: trace_solve.
  all: split; [local_options_solve |].
  all: intros headless Hh Hc; try discriminate Hh; try discriminate Hc.
  all: try impossible_throw.
  all: eexists; cbn [In]; eauto 10.
Qed.

Lemma launch_local_executable_witness :
  let s := snd (callTool Http "puppeteer_launch" (JObject []) Toy.start) in
  exists o calls,
    trace (snd (launchBrowser Http (JObject []) s)) = (trace s ++ calls)%list /\
    In (CallLaunch o) calls /\
    opt_args o = Some ["--no-sandbox"; "--disable-setuid-sandbox"] /\
    opt_executablePath o = Some (JString "/usr/bin/chromium-browser").
Proof.
  intros s.
  destruct (@launch_local_executable Toy.World Toy.platform (JObject []) s eq_refl)
    as (calls & Htrace & Hall & Hmade).
  destruct (Hmade JUndefined eq_refl eq_refl) as [o Ho].
  exists o, calls. split; [exact Htrace | split; [exact Ho |]].
  destruct (Hall o Ho) as [Hargs Hpath]. split; [exact Hargs |].
  vm_compute in Htrace. inversion Htrace; subst calls.
  cbn [In] in Ho.
  repeat (destruct Ho as [Ho | Ho]; [try discriminate Ho |]);
    [| contradiction].
  inversion Ho; subst. reflexivity.
Defined.

(** X7. In the hosted mode the HTTP variant, once the browser that was open
    (if any) has been closed, first asks chrome-aws-lambda for the
    executable.  Every launch call it then makes names the executable that
    lookup returned, and has as arguments the chromium ones followed by
    [--hide-scrollbars] and [--disable-web-security].  When the closing, if
    any, went without error: if the lookup fails the launch fails with the
    same error and the lookup is the last call made; if it answers and the
    arguments are an object, the launch call follows it at once. *)
Theorem launch_hosted_executable {W} {P : Platform W} args (s : State W) :
  is_production NODE_ENV = true ->
  exists calls,
    trace (snd (launchBrowser Http args s)) = (trace s ++ calls)%list /\
    (forall o, In (CallLaunch o) calls ->
       exists e w1,
         chromium_executablePath (world_after_close s) = (Normal e, w1) /\
         opt_executablePath o = Some e /\
         opt_args o
         = Some (chromium_args ++ ["--hide-scrollbars"; "--disable-web-security"])%list) /\
    (closes_cleanly s ->
     match chromium_executablePath (world_after_close s) with
     | (Throw t, _) =>
         fst (launchBrowser Http args s) = Throw t /\
         calls = (closing_calls s ++ [CallExecutablePath])%list
     | (Normal _, _) =>
         forall headless,
           get_prop args "headless" = Normal headless ->
           exists o rest,
             calls = (closing_calls s ++ [CallExecutablePath; CallLaunch o] ++ rest)%list
     end).
Proof.
  intros Hprod.
  assert (Hwp : wp (launchBrowser Http args)
     (fun _ s' =>
        exists calls,
          trace s' = (trace s ++ calls)%list /\
          (forall o, In (CallLaunch o) calls ->
             exists e w1,
               chromium_executablePath (world_after_close s) = (Normal e, w1) /\
               opt_executablePath o = Some e /\
               opt_args o
               = Some (chromium_args
                       ++ ["--hide-scrollbars"; "--disable-web-security"])%list) /\
          (closes_cleanly s ->
           match chromium_executablePath (world_after_close s) with
           | (Throw t, _) => False
           | (Normal _, _) =>
               forall headless,
                 get_prop args "headless" = Normal headless ->
                 exists o rest,
                   calls = (closing_calls s
                            ++ [CallExecutablePath; CallLaunch o] ++ rest)%list
           end))
     (fun t' s' =>
        exists calls,
          trace s' = (trace s ++ calls)%list /\
          (forall o, In (CallLaunch o) calls ->
             exists e w1,
               chromium_executablePath (world_after_close s) = (Normal e, w1) /\
               opt_executablePath o = Some e /\
               opt_args o
               = Some (chromium_args
                       ++ ["--hide-scrollbars"; "--disable-web-security"])%list) /\
          (closes_cleanly s ->
           match chromium_executablePath (world_after_close s) with
           | (Throw t, _) =>
               t' = t /\ calls = (closing_calls s ++ [CallExecutablePath])%list
           | (Normal _, _) =>
               forall headless,
                 get_prop args "headless" = Normal headless ->
                 exists o rest,
                   calls = (closing_calls s
                            ++ [CallExecutablePath; CallLaunch o] ++ rest)%list
           end))
     s).
  { unfold world_after_close, closes_cleanly, closing_calls.
    wp_unfold.
    repeat (cbn [browser page world trace after_call];
            first [ rewrite Hprod; cbv beta iota | wpx_step ]).
    all: unit_answers;
      cbn [browser page world trace after_call] in *;
      repeat match goal with
             | E : browser_close ?h ?w = (_, _) |- _ => rewrite E; clear E
             end;
      cbn [fst snd];
      repeat match goal with
             | E : chromium_executablePath ?w = (_, _) |- _ => rewrite E
             end.
    all: trace_solve.
    all: split;
      [ let o := fresh "o" in
        let Hin := fresh "Hin" in
        intros o Hin; cbn [In] in Hin;
        repeat (destruct Hin as [Hin | Hin]; [try discriminate Hin |]);
        try contradiction;
        inversion Hin; subst; do 2 eexists;
        (split; [reflexivity |]); split; reflexivity
      | ].
    all: intros Hc; try discriminate Hc.
    all: try (split; reflexivity).
    all: intros headless Hh; try discriminate Hh.
    all: try impossible_throw.
    all: do 2 eexists; cbn [app]; reflexivity. }
  unfold wp in Hwp.
  destruct (launchBrowser Http args s) as [[envelope | t'] s'] eqn:E; cbn [fst snd].
  - destruct Hwp as (calls & Htrace & Hall & Hrest).
    exists calls. split; [exact Htrace | split; [exact Hall |]].
    intros Hc. specialize (Hrest Hc).
    destruct (chromium_executablePath (world_after_close s)) as [[e | t] w1];
      [exact Hrest | contradiction].
  - destruct Hwp as (calls & Htrace & Hall & Hrest).
    exists calls. split; [exact Htrace | split; [exact Hall |]].
    intros Hc. specialize (Hrest Hc).
    destruct (chromium_executablePath (world_after_close s)) as [[e | t] w1];
      [exact Hrest |].
    destruct Hrest as [-> ->]. split; reflexivity.
Qed.

Lemma launch_hosted_executable_witness :
  let hosted := toy_variant (Some "production") true true in
  let s := snd (@callTool _ hosted Http "puppeteer_launch" (JObject []) Toy.start) in
  exists o rest,
    trace (snd (@launchBrowser _ hosted Http (JObject []) s))
    = (trace s ++ [CallBrowserClose 0] ++ [CallExecutablePath; CallLaunch o] ++ rest)%list /\
    opt_executablePath o = Some (JString "/tmp/chromium") /\
    opt_args o
    = Some ["--single-process"; "--hide-scrollbars"; "--disable-web-security"].
Proof.
  intros hosted s.
  destruct (@launch_hosted_executable Toy.World hosted (JObject []) s eq_refl)
    as (calls & Htrace & Hall & Hmade).
  destruct (Hmade eq_refl JUndefined eq_refl) as (o & rest & Hcalls).
  exists o, rest. rewrite Htrace, Hcalls. split; [reflexivity |].
  assert (Ho : In (CallLaunch o) calls).
  { rewrite Hcalls. cbn. auto. }
  destruct (Hall o Ho) as (e & w1 & He & Hpath & Hargs).
  inversion He; subst e. split; [exact Hpath | exact Hargs].
Defined.

(** *** Page operations on an open session *)

Ltac on_page_solve :=
  cbn [browser page world trace after_call];
  repeat match goal with
         | H : Some _ = Some _ |- _ => inversion H; subst; clear H
         end;
  try discriminate;
  (split; [reflexivity |]); (split; [reflexivity |]);
  trace_solve; repeat constructor.

(** X8. With both handles present, a page tool, whatever its arguments and
    whatever the engine answers, leaves both handles as they are, and every
    engine call it makes is a call on the session's page: it never launches,
    closes or opens anything. *)
Theorem page_tool_calls_on_current_page {W} {P : Platform W} v t args (s : State W) b p :
  browser s = Some b ->
  page s = Some p ->
  browser (snd (callTool v (page_tool_name t) args s)) = Some b /\
  page (snd (callTool v (page_tool_name t) args s)) = Some p /\
  exists calls,
    trace (snd (callTool v (page_tool_name t) args s)) = (trace s ++ calls)%list /\
    Forall (fun c => call_page c = Some p) calls.
Proof.
  intros Hb Hp.
  apply (wp_final (callTool v (page_tool_name t) args)
           (fun s' =>
              browser s' = Some b /\ page s' = Some p /\
              exists calls,
                trace s' = (trace s ++ calls)%list /\
                Forall (fun c => call_page c = Some p) calls)).
  unfold callTool. rewrite page_tool_dispatch.
  destruct t; wp_unfold;
    repeat (cbn [browser page world trace after_call];
            first [ rewrite Hb; cbv beta iota | rewrite Hp; cbv beta iota | wp_step ]).
  all: on_page_solve.
Qed.

Lemma page_tool_calls_on_current_page_witness :
  let s := snd (callTool Stdio "puppeteer_launch" (JObject []) Toy.start) in
  let s' := snd (callTool Stdio "puppeteer_get_text"
                   (JObject [("selector", JString "h1")]) s) in
  browser s' = Some 0%nat /\
  page s' = Some 1%nat /\
  exists calls,
    trace s' = (trace s ++ calls)%list /\
    Forall (fun c => call_page c = Some 1%nat) calls.
Proof.
  intros s s'.
  apply (@page_tool_calls_on_current_page Toy.World Toy.platform Stdio GetText
           (JObject [("selector", JString "h1")]) s 0%nat 1%nat);
    reflexivity.
Defined.

Lemma ensureBrowserAndPage_lazy {W} {P : Platform W} (s : State W) b r w1 :
  browser s = Some b ->
  page s = None ->
  browser_newPage b (world s) = (r, w1) ->
  ensureBrowserAndPage s
  = match r with
    | Normal p =>
        (Normal tt, {| browser := Some b; page := Some p; world := w1;
                       trace := (trace s ++ [CallNewPage b])%list |})
    | Throw e => (Throw e, after_call s (CallNewPage b) w1)
    end.
Proof.
  intros Hb Hp E.
  unfold ensureBrowserAndPage, bind, get_browser, get_page, await_newPage, engine,
    set_page.
  rewrite Hb, Hp, E. destruct r; cbn [browser page world trace after_call].
  - rewrite Hb. reflexivity.
  - reflexivity.
Qed.

Ltac lazy_page_solve :=
  cbn [browser page world trace after_call];
  try discriminate;
  (split; [reflexivity |]); (split; [reflexivity |]);
  repeat rewrite <- app_assoc; cbn [app];
  eexists; split; [reflexivity |];
  split; [discriminate | repeat constructor].

(** X9. With a browser handle and no page handle, a page tool called with
    arguments its schema accepts first opens a page on that browser.  When
    the engine refuses, the tool answers with the engine's error, and the
    session still has no page.  When the engine opens the page, the session
    keeps it and the tool goes on to make its own calls, at least one, all on
    the new page. *)
Theorem page_tool_opens_page_lazily {W} {P : Platform W} v t args (s : State W) b :
  browser s = Some b ->
  page s = None ->
  schema_accepts t args = true ->
  match browser_newPage b (world s) with
  | (Throw e, w1) =>
      callTool v (page_tool_name t) args s
      = (Normal [TextItem ("Error: " ++ error_text e)], after_call s (CallNewPage b) w1)
  | (Normal p, w1) =>
      browser (snd (callTool v (page_tool_name t) args s)) = Some b /\
      page (snd (callTool v (page_tool_name t) args s)) = Some p /\
      exists calls,
        trace (snd (callTool v (page_tool_name t) args s))
        = (trace s ++ CallNewPage b :: calls)%list /\
        calls <> [] /\
        Forall (fun c => call_page c = Some p) calls
  end.
Proof.
  intros Hb Hp Hacc.
  destruct (browser_newPage b (world s)) as [[p | e] w1] eqn:E.
  - pose proof (ensureBrowserAndPage_lazy s b _ w1 Hb Hp E) as He.
    apply (wp_final (callTool v (page_tool_name t) args)
             (fun s' =>
                browser s' = Some b /\ page s' = Some p /\
                exists calls,
                  trace s' = (trace s ++ CallNewPage b :: calls)%list /\
                  calls <> [] /\
                  Forall (fun c => call_page c = Some p) calls)).
    unfold callTool. rewrite page_tool_dispatch. apply wp_try_catch.
    destruct t; cbn [schema_accepts] in Hacc;
      unfold navigate, screenshot, getText, click, type, evaluate;
      apply wp_bind, wp_parse;
      match goal with
      | |- match ?r with _ => _ end => destruct r as [errs | a] eqn:?;
                                       [discriminate Hacc |]
      end;
      apply wp_bind; apply (wp_of_eq _ _ _ s _ _ He);
      unfold this_page, await_goto, await_screenshot, await_query, await_textContent,
        await_body_textContent, await_click, await_type, await_eval;
      wp_go.
    all: lazy_page_solve.
  - pose proof (ensureBrowserAndPage_lazy s b _ w1 Hb Hp E) as He.
    unfold callTool, try_catch. rewrite page_tool_dispatch.
    destruct t; cbn [schema_accepts] in Hacc;
      unfold navigate, screenshot, getText, click, type, evaluate;
      unfold bind at 1; parse_accepts Hacc;
      unfold bind at 1; rewrite He; reflexivity.
Qed.

Lemma page_tool_opens_page_lazily_witness :
  let s := {| browser := Some 0%nat; page := None;
              world := world (snd (callTool Stdio "puppeteer_launch" (JObject [])
                                     Toy.start));
              trace := [] |} in
  let s' := snd (callTool Stdio "puppeteer_click"
                   (JObject [("selector", JString "h1")]) s) in
  browser s' = Some 0%nat /\
  page s' = Some 2%nat /\
  exists calls,
    trace s' = ([] ++ CallNewPage 0 :: calls)%list /\
    calls <> [] /\
    Forall (fun c => call_page c = Some 2%nat) calls.
Proof.
  intros s s'.
  apply (@page_tool_opens_page_lazily Toy.World Toy.platform Stdio Click
           (JObject [("selector", JString "h1")]) s 0%nat);
    reflexivity.
Defined.

(** *** Closing, then going on *)

Lemma page_tool_not_launched {W} {P : Platform W} v t args (s : State W) :
  schema_accepts t args = true ->
  browser s = None ->
  callTool v (page_tool_name t) args s
  = (Normal [TextItem "Error: Browser not launched. Use puppeteer_launch first."], s).
Proof.
  intros Hacc Hb.
  unfold callTool, try_catch. rewrite page_tool_dispatch.
  destruct t; cbn [schema_accepts] in Hacc;
    unfold navigate, screenshot, getText, click, type, evaluate;
    unfold bind at 1; parse_accepts Hacc;
    unfold bind at 1; rewrite (ensureBrowserAndPage_not_launched s Hb);
    reflexivity.
Qed.

(** X10. After a close that the engine carried out, a page tool called
    with acceptable arguments is refused with "Browser not launched": the
    two calls in a row answer the confirmation and then that error, make the
    one engine call that closes the browser, and leave the session without
    handles. *)
Theorem page_tool_after_close {W} {P : Platform W} v t any args (s : State W) b w' :
  browser s = Some b ->
  browser_close b (world s) = (Normal tt, w') ->
  schema_accepts t args = true ->
  serve v [("puppeteer_close", any); (page_tool_name t, args)] s
  = ([ Normal [TextItem "Browser closed successfully"];
       Normal [TextItem "Error: Browser not launched. Use puppeteer_launch first."] ],
     {| browser := None; page := None; world := w';
        trace := (trace s ++ [CallBrowserClose b])%list |}).
Proof.
  intros Hb Hc Hacc. cbn [serve].
  rewrite (callTool_close v any s _ _ (closeBrowser_open s b w' Hb Hc)).
  rewrite page_tool_not_launched by (exact Hacc || reflexivity).
  reflexivity.
Qed.

Lemma page_tool_after_close_witness :
  let s := snd (callTool Stdio "puppeteer_launch" (JObject []) Toy.start) in
  serve Stdio [("puppeteer_close", JUndefined);
               ("puppeteer_evaluate", JObject [("script", JString "1+1")])] s
  = ([ Normal [TextItem "Browser closed successfully"];
       Normal [TextItem "Error: Browser not launched. Use puppeteer_launch first."] ],
     {| browser := None; page := None; world := snd (Toy.close 0 (world s));
        trace := (trace s ++ [CallBrowserClose 0])%list |}).
Proof.
  intros s.
  apply (@page_tool_after_close Toy.World Toy.platform Stdio Evaluate JUndefined
           (JObject [("script", JString "1+1")]) s 0%nat (snd (Toy.close 0 (world s))));
    reflexivity.
Defined.

(** *** The shape of every answer *)

(** X11. Every answer of the tool-call handler is either a single text
    item, or, for the screenshot tool only, a text item followed by one image
    item whose media type is [image/] followed by png, jpeg or webp. *)
Theorem envelope_shape {W} {P : Platform W} v name args (s : State W) :
  exists envelope,
    fst (callTool v name args s) = Normal envelope /\
    ((exists text, envelope = [TextItem text]) \/
     (name = "puppeteer_screenshot" /\
      exists text data format,
        envelope = [TextItem text; ImageItem data ("image/" ++ Format_to_string format)])).
Proof.
  assert (Hwp : wp (callTool v name args)
                   (fun envelope _ =>
                      (exists text, envelope = [TextItem text]) \/
                      (name = "puppeteer_screenshot" /\
                       exists text data format,
                         envelope = [TextItem text;
                                     ImageItem data ("image/" ++ Format_to_string format)]))
                   (fun _ _ => False) s).
  { wp_unfold. wp_go.
    all: first [ left; eexists; reflexivity
               | right; split;
                 [ match goal with
                   | H : String.eqb _ "puppeteer_screenshot" = true |- _ =>
                       apply String.eqb_eq in H; exact H
                   end
                 | do 3 eexists; reflexivity ] ]. }
  unfold wp in Hwp.
  destruct (callTool v name args s) as [[envelope | t] s'].
  - exists envelope. split; [reflexivity | exact Hwp].
  - contradiction.
Qed.

(** *** What the page tools answer *)

(** X12. Navigating on an open session with a URL that parses and no
    [waitUntil]: the engine is asked to go to that URL and to wait for
    [load]; when it returns the tool confirms with "Navigated to: <url>", and
    when it throws the tool answers with the engine's error.  Either way the
    handles stay. *)
Theorem navigate_default_waitUntil {W} {P : Platform W} v props url
        (s : State W) b p r w' :
  own_prop "url" props = JString url ->
  valid_URL url = true ->
  own_prop "waitUntil" props = JUndefined ->
  browser s = Some b ->
  page s = Some p ->
  page_goto p url load (world s) = (r, w') ->
  callTool v "puppeteer_navigate" (JObject props) s
  = (Normal [TextItem match r with
                      | Normal _ => "Navigated to: " ++ url
                      | Throw e => "Error: " ++ error_text e
                      end],
     after_call s (CallGoto p url load) w').
Proof.
  intros Hu Hv Hw Hb Hp Hg.
  unfold callTool, try_catch. cbn [dispatch String.eqb Ascii.eqb Bool.eqb].
  unfold navigate. unfold bind at 1.
  unfold NavigateSchema, Zod.field, Zod.string_url, Zod.optional_default.
  rewrite Hu, Hv, Hw. cbn [parse ret nav_url nav_waitUntil].
  unfold bind at 1. rewrite (ensureBrowserAndPage_ready s b p Hb Hp).
  unfold bind, this_page, bind, get_page, await_goto, engine.
  rewrite Hp. cbn [ret]. rewrite Hg. destruct r as [[] | e]; reflexivity.
Qed.

Lemma navigate_default_waitUntil_witness :
  let s := snd (callTool Stdio "puppeteer_launch" (JObject []) Toy.start) in
  callTool Stdio "puppeteer_navigate" (JObject [("url", JString "https://example.com")]) s
  = (Normal [TextItem "Navigated to: https://example.com"],
     after_call s (CallGoto 1 "https://example.com" load) (world s)).
Proof.
  intros s.
  apply (@navigate_default_waitUntil Toy.World Toy.platform Stdio
           [("url", JString "https://example.com")] "https://example.com"
           s 0%nat 1%nat (Normal tt) (world s));
    reflexivity.
Defined.

(** X13. A screenshot on an open session, with arguments the schema turned
    into [a]: the engine gets one screenshot call, with the validated
    [fullPage] and format, and with a quality exactly when the format is jpeg
    and a quality other than zero was given (that quality, which then lies in
    (0, 100]).  When the engine returns image data the answer is the text
    "Screenshot taken (<format>, fullPage: <fullPage>)" followed by the
    base64 of the data tagged [image/<format>]; when it returns none the
    answer is "Error: Failed to capture screenshot". *)
Theorem screenshot_on_open_session {W} {P : Platform W} v args a (s : State W) b p r w' :
  ScreenshotSchema args = inr a ->
  browser s = Some b ->
  page s = Some p ->
  page_screenshot p (screenshot_options a) (world s) = (r, w') ->
  callTool v "puppeteer_screenshot" args s
  = (Normal match r with
            | Normal (Some data) =>
                [TextItem ("Screenshot taken (" ++ Format_to_string (shot_format a)
                           ++ ", fullPage: " ++ bool_to_string (shot_fullPage a) ++ ")");
                 ImageItem (base64 data) ("image/" ++ Format_to_string (shot_format a))]
            | Normal None => [TextItem "Error: Failed to capture screenshot"]
            | Throw e => [TextItem ("Error: " ++ error_text e)]
            end,
     after_call s (CallScreenshot p (screenshot_options a)) w') /\
  so_fullPage (screenshot_options a) = shot_fullPage a /\
  so_type (screenshot_options a) = shot_format a /\
  (forall q,
     so_quality (screenshot_options a) = Some q <->
     shot_format a = jpeg /\ shot_quality a = Some q /\ ~ (q == 0)%Q) /\
  (forall q,
     so_quality (screenshot_options a) = Some q -> (0 < q /\ q <= 100)%Q).
Proof.
  intros Ha Hb Hp Hs.
  assert (Hq : forall q,
             so_quality (screenshot_options a) = Some q <->
             shot_format a = jpeg /\ shot_quality a = Some q /\ ~ (q == 0)%Q).
  { intros q. rewrite screenshot_options_quality.
    split; intros (H1 & H2 & H3); (split; [exact H1 | split; [exact H2 |]]).
    - intros Hz. apply Qeq_bool_iff in Hz. congruence.
    - destruct (Qeq_bool q 0) eqn:E; [| reflexivity].
      apply Qeq_bool_iff in E. contradiction. }
  split; [| split; [reflexivity | split; [reflexivity | split; [exact Hq |]]]].
  - unfold callTool, try_catch. cbn [dispatch String.eqb Ascii.eqb Bool.eqb].
    unfold screenshot. unfold bind at 1. rewrite Ha. cbn [parse ret].
    unfold bind at 1. rewrite (ensureBrowserAndPage_ready s b p Hb Hp).
    unfold bind, this_page, bind, get_page, await_screenshot, engine.
    rewrite Hp. cbn [ret]. rewrite Hs. destruct r as [[data |] | e]; reflexivity.
  - intros q Hso. apply Hq in Hso. destruct Hso as (_ & Hsq & Hnz).
    destruct (ScreenshotSchema_quality_range args a q Ha Hsq) as [Hlo Hhi].
    split; [| exact Hhi].
    apply Qle_lt_or_eq in Hlo. destruct Hlo as [Hlt | Heq]; [exact Hlt |].
    exfalso. apply Hnz. symmetry. exact Heq.
Qed.

Lemma screenshot_on_open_session_witness :
  let s := snd (callTool Stdio "puppeteer_launch" (JObject []) Toy.start) in
  callTool Stdio "puppeteer_screenshot"
           (JObject [("format", JString "jpeg"); ("quality", JNumber 80)]) s
  = (Normal [TextItem "Screenshot taken (jpeg, fullPage: false)";
             ImageItem "AAAA" "image/jpeg"],
     after_call s (CallScreenshot 1 {| so_fullPage := false; so_type := jpeg;
                                       so_quality := Some 80%Q |})
                (world s)).
Proof.
  intros s.
  apply (proj1 (@screenshot_on_open_session Toy.World Toy.platform Stdio
                  (JObject [("format", JString "jpeg"); ("quality", JNumber 80)])
                  {| shot_fullPage := false; shot_format := jpeg;
                     shot_quality := Some 80%Q |}
                  s 0%nat 1%nat (Normal (Some [Byte.x89; Byte.x50])) (world s)
                  eq_refl eq_refl eq_refl eq_refl)).
Defined.

(** X14. Reading the text of an element on an open session: with a
    non-empty selector that the engine resolves to an element, the tool asks
    for that element's text content and answers "Text from <selector>: "
    followed by it, an absent text content being the empty string. *)
Theorem getText_of_element {W} {P : Platform W} v args sel (s : State W) b p el w1 t w2 :
  GetTextSchema args = inr {| text_selector := Some sel |} ->
  sel <> "" ->
  browser s = Some b ->
  page s = Some p ->
  page_query p sel (world s) = (Normal (Some el), w1) ->
  page_textContent p el w1 = (Normal t, w2) ->
  callTool v "puppeteer_get_text" args s
  = (Normal [TextItem ("Text from " ++ sel ++ ": " ++ or_empty t)],
     {| browser := Some b; page := Some p; world := w2;
        trace := (trace s ++ [CallQuery p sel; CallElementText p el])%list |}).
Proof.
  intros Ha Hsel Hb Hp Hq Ht.
  rewrite callTool_get_text.
  unfold getText. unfold bind at 1. rewrite Ha. cbn [parse ret].
  unfold bind at 1. rewrite (ensureBrowserAndPage_ready s b p Hb Hp).
  cbn [text_selector selector_truthy truthy].
  apply String.eqb_neq in Hsel. rewrite Hsel. cbn [negb].
  unfold bind, this_page, bind, get_page, await_query, await_textContent, engine.
  rewrite Hp. cbn [ret]. rewrite Hq.
  cbn [browser page world trace]. rewrite Hp. cbn [ret world]. rewrite Ht.
  cbn [browser page world trace]. rewrite Hb, <- app_assoc. reflexivity.
Qed.

Lemma getText_of_element_witness :
  let s := snd (callTool Stdio "puppeteer_launch" (JObject []) Toy.start) in
  callTool Stdio "puppeteer_get_text" (JObject [("selector", JString "#empty")]) s
  = (Normal [TextItem "Text from #empty: "],
     {| browser := Some 0%nat; page := Some 1%nat; world := world s;
        trace := (trace s ++ [CallQuery 1 "#empty"; CallElementText 1 1])%list |}).
Proof.
  intros s.
  apply (@getText_of_element Toy.World Toy.platform Stdio
           (JObject [("selector", JString "#empty")]) "#empty" s 0%nat 1%nat 1%nat
           (world s) None (world s));
    first [ reflexivity | discriminate ].
Defined.

(** *** What the schemas accept *)

Lemma WaitUntil_lookup w x :
  Zod.enum_lookup w WaitUntil_values = Some x <-> w = WaitUntil_to_string x.
Proof.
  unfold WaitUntil_values; cbn [Zod.enum_lookup]. split.
  - repeat match goal with
           | |- context [String.eqb w ?k] =>
               destruct (String.eqb_spec w k) as [-> |]
           end;
      intros H; inversion H; reflexivity.
  - intros ->. destruct x; reflexivity.
Qed.

Lemma Format_lookup w x :
  Zod.enum_lookup w Format_values = Some x <-> w = Format_to_string x.
Proof.
  unfold Format_values; cbn [Zod.enum_lookup]. split.
  - repeat match goal with
           | |- context [String.eqb w ?k] =>
               destruct (String.eqb_spec w k) as [-> |]
           end;
      intros H; inversion H; reflexivity.
  - intros ->. destruct x; reflexivity.
Qed.

(** X15. [NavigateSchema] yields [{url, waitUntil}] exactly on an object
    whose [url] is that string and parses as a URL and whose [waitUntil] is
    either absent, giving [load], or one of the four names, giving that
    one. *)
Theorem NavigateSchema_accepts_iff (valid : string -> bool) args a :
  NavigateSchema valid args = inr a <->
  exists props,
    args = JObject props /\
    own_prop "url" props = JString (nav_url a) /\
    valid (nav_url a) = true /\
    (own_prop "waitUntil" props = JUndefined /\ nav_waitUntil a = load \/
     own_prop "waitUntil" props = JString (WaitUntil_to_string (nav_waitUntil a))).
Proof.
  split.
  - unfold NavigateSchema, Zod.field, Zod.string_url, Zod.optional_default, Zod.enum.
    destruct args; try discriminate. intros H. exists props.
    destruct (own_prop "url" props) as [| | | |u| |] eqn:Eu;
      try (destruct (match own_prop "waitUntil" props with JUndefined => _ | _ => _ end);
           discriminate H).
    destruct (valid u) eqn:Ev;
      [| destruct (match own_prop "waitUntil" props with JUndefined => _ | _ => _ end);
         discriminate H].
    destruct (own_prop "waitUntil" props) as [| | | |w| |] eqn:Ew; try discriminate H.
    + inversion H; subst; cbn. tauto.
    + destruct (Zod.enum_lookup w WaitUntil_values) as [x |] eqn:El; [| discriminate H].
      inversion H; subst; cbn. apply WaitUntil_lookup in El. subst w. tauto.
  - intros (props & -> & Hu & Hv & Hw).
    unfold NavigateSchema, Zod.field, Zod.string_url, Zod.optional_default, Zod.enum.
    rewrite Hu, Hv. destruct a as [u w]; cbn [nav_url nav_waitUntil] in *.
    destruct Hw as [[-> ->] | ->]; [reflexivity |].
    rewrite (proj2 (WaitUntil_lookup _ w) eq_refl). reflexivity.
Qed.

(** X16. [ScreenshotSchema] yields [{fullPage, format, quality}] exactly
    on an object whose [fullPage] is absent (giving false) or that boolean,
    whose [format] is absent (giving png) or the name of that format, and
    whose [quality] is absent (giving none) or that number, lying between 0
    and 100 inclusive. *)
Theorem ScreenshotSchema_accepts_iff args a :
  ScreenshotSchema args = inr a <->
  exists props,
    args = JObject props /\
    (own_prop "fullPage" props = JUndefined /\ shot_fullPage a = false \/
     own_prop "fullPage" props = JBool (shot_fullPage a)) /\
    (own_prop "format" props = JUndefined /\ shot_format a = png \/
     own_prop "format" props = JString (Format_to_string (shot_format a))) /\
    (own_prop "quality" props = JUndefined /\ shot_quality a = None \/
     exists q, own_prop "quality" props = JNumber q /\ shot_quality a = Some q /\
               (0 <= q /\ q <= 100)%Q).
Proof.
  split.
  - unfold ScreenshotSchema, Zod.field, Zod.optional_default, Zod.optional, Zod.boolean,
      Zod.enum, Zod.number_min_max.
    destruct args; try discriminate. intros H. exists props.
    split; [reflexivity |].
    destruct (own_prop "fullPage" props) as [| |fp| | | |] eqn:Efp;
      destruct (own_prop "format" props) as [| | | |f| |] eqn:Ef;
      try (destruct (Zod.enum_lookup f Format_values) as [x |] eqn:El);
      destruct (own_prop "quality" props) as [| | |qv| | |] eqn:Equal;
      try (destruct (Qle_bool 0 qv) eqn:E1; destruct (Qle_bool qv 100) eqn:E2);
      cbn in H; try discriminate H;
      inversion H; subst; cbn [shot_fullPage shot_format shot_quality];
      try (apply Format_lookup in El; subst f);
      try (apply Qle_bool_iff in E1; apply Qle_bool_iff in E2);
      repeat split; eauto 8.
  - intros (props & -> & Hfp & Hf & Hq).
    destruct a as [fp f oq]; cbn [shot_fullPage shot_format shot_quality] in *.
    unfold ScreenshotSchema, Zod.field, Zod.optional_default, Zod.optional, Zod.boolean,
      Zod.enum, Zod.number_min_max.
    destruct Hq as [[Hq ->] | (q & Hq & -> & Hlo & Hhi)].
    + destruct Hfp as [[-> ->] | ->]; destruct Hf as [[-> ->] | ->];
        rewrite Hq; try rewrite (proj2 (Format_lookup _ f) eq_refl); reflexivity.
    + apply Qle_bool_iff in Hlo. apply Qle_bool_iff in Hhi.
      destruct Hfp as [[-> ->] | ->]; destruct Hf as [[-> ->] | ->];
        rewrite Hq, Hlo, Hhi; try rewrite (proj2 (Format_lookup _ f) eq_refl);
        reflexivity.
Qed.

(** *** The CORS middleware *)

Lemma find_filter_compat {A} (g h : A -> bool) (l : list A) :
  (forall x, g x = true -> h x = true) ->
  find g (filter h l) = find g l.
Proof.
  intros H. induction l as [|a l IH]; cbn [filter find]; [reflexivity |].
  destruct (h a) eqn:Eh; cbn [find].
  - rewrite IH. reflexivity.
  - destruct (g a) eqn:Eg; [| exact IH].
    apply H in Eg. congruence.
Qed.

Lemma getHeader_header name field value res :
  Cors.getHeader name (Cors.header field value res)
  = if Cors.same_name field name then Some value else Cors.getHeader name res.
Proof.
  unfold Cors.getHeader, Cors.header. cbn [Cors.headers find fst].
  destruct (Cors.same_name field name) eqn:E; [reflexivity |].
  rewrite find_filter_compat; [reflexivity |].
  intros [k v'] Hk. cbn [fst] in *.
  destruct (Cors.same_name k field) eqn:Ek; [| reflexivity].
  unfold Cors.same_name in *.
  apply String.eqb_eq in Hk, Ek. apply String.eqb_neq in E.
  congruence.
Qed.

(** X17. The CORS middleware of the HTTP variant.  Whatever the request
    method and whatever headers the response already had (under any
    spelling of their names), when the middleware lets go of the request the
    response carries [Access-Control-Allow-Origin: *],
    [Access-Control-Allow-Methods: GET, POST, OPTIONS] and
    [Access-Control-Allow-Headers: Content-Type, Authorization], and every
    other header is as it was.  For an OPTIONS request it lets go by calling
    [res.sendStatus(200)] and never calls [next()]; for any other method it
    calls [next()] and sends nothing itself. *)
Theorem cors_middleware method res :
  (forall name,
     Cors.getHeader name (fst (Cors.middleware method res))
     = if Cors.same_name "Access-Control-Allow-Headers" name
       then Some "Content-Type, Authorization"
       else if Cors.same_name "Access-Control-Allow-Methods" name
            then Some "GET, POST, OPTIONS"
            else if Cors.same_name "Access-Control-Allow-Origin" name
                 then Some "*"
                 else Cors.getHeader name res) /\
  snd (Cors.middleware method res)
  = if String.eqb method "OPTIONS" then Cors.SendStatus 200 else Cors.Next.
Proof.
  unfold Cors.middleware.
  destruct (String.eqb method "OPTIONS"); cbn [fst snd]; (split; [| reflexivity]);
    intros name; rewrite !getHeader_header; reflexivity.
Qed.

Example cors_replaces_existing_header :
  Cors.getHeader "ACCESS-CONTROL-ALLOW-ORIGIN"
    (fst (Cors.middleware "GET"
            {| Cors.headers := [("access-control-allow-origin", "https://example.com");
                                ("X-Powered-By", "Express")] |}))
  = Some "*" /\
  Cors.headers
    (fst (Cors.middleware "GET"
            {| Cors.headers := [("access-control-allow-origin", "https://example.com");
                                ("X-Powered-By", "Express")] |}))
  = [("Access-Control-Allow-Headers", "Content-Type, Authorization");
     ("Access-Control-Allow-Methods", "GET, POST, OPTIONS");
     ("Access-Control-Allow-Origin", "*");
     ("X-Powered-By", "Express")].
Proof. split; reflexivity. Qed.

(** *** Closing and evaluating *)

(** X18. When the engine fails to close the browser, the close tool answers
    with the engine's error and clears nothing: both handles stay as they
    were, so the next close asks the engine again. *)
Theorem close_keeps_handles_when_engine_fails {W} {P : Platform W}
        v args (s : State W) b e w' :
  browser s = Some b ->
  browser_close b (world s) = (Throw e, w') ->
  callTool v "puppeteer_close" args s
  = (Normal [TextItem ("Error: " ++ error_text e)], after_call s (CallBrowserClose b) w').
Proof.
  intros Hb Hc.
  unfold callTool, try_catch. cbn [dispatch String.eqb Ascii.eqb Bool.eqb].
  rewrite (closeBrowser_engine_failure s b e w' Hb Hc). reflexivity.
Qed.

Lemma close_keeps_handles_when_engine_fails_witness :
  let s := snd (@callTool _ (toy_variant None false true) Stdio "puppeteer_launch"
                  (JObject []) Toy.start) in
  @callTool _ (toy_variant None false true) Stdio "puppeteer_close" JUndefined s
  = (Normal [TextItem "Error: Protocol error: Connection closed"],
     after_call s (CallBrowserClose 0) (world s)).
Proof.
  intros s.
  apply (@close_keeps_handles_when_engine_fails Toy.World (toy_variant None false true)
           Stdio JUndefined s 0%nat (EngineError "Protocol error: Connection closed")
           (world s));
    reflexivity.
Defined.

(** X19. The evaluate tool hands the script to the page as it is: on an
    open session the one engine call carries exactly the string given as
    [script], and the answer is "Script result: " followed by the value's
    JSON text, or the error of the script as an error answer. *)
Theorem evaluate_passes_script_unchanged {W} {P : Platform W}
        v props script (s : State W) b p r w' :
  own_prop "script" props = JString script ->
  browser s = Some b ->
  page s = Some p ->
  page_eval p script (world s) = (r, w') ->
  callTool v "puppeteer_evaluate" (JObject props) s
  = (Normal [TextItem match r with
                      | Normal result => "Script result: " ++ JSON_stringify result
                      | Throw e => "Error: " ++ error_text e
                      end],
     after_call s (CallEval p script) w').
Proof.
  intros Hs Hb Hp He.
  unfold callTool, try_catch. cbn [dispatch String.eqb Ascii.eqb Bool.eqb].
  unfold evaluate. unfold bind at 1.
  unfold EvaluateSchema, Zod.field, Zod.string. rewrite Hs. cbn [parse ret eval_script].
  unfold bind at 1. rewrite (ensureBrowserAndPage_ready s b p Hb Hp).
  unfold bind, this_page, bind, get_page, await_eval, engine.
  rewrite Hp. cbn [ret]. rewrite He. destruct r; reflexivity.
Qed.

Lemma evaluate_passes_script_unchanged_witness :
  let s := snd (callTool Stdio "puppeteer_launch" (JObject []) Toy.start) in
  callTool Stdio "puppeteer_evaluate" (JObject [("script", JString "document.title")]) s
  = (Normal [TextItem "Script result: undefined"],
     after_call s (CallEval 1 "document.title") (world s)).
Proof.
  intros s.
  apply (@evaluate_passes_script_unchanged Toy.World Toy.platform Stdio
           [("script", JString "document.title")] "document.title" s 0%nat 1%nat
           (Normal JUndefined) (world s));
    reflexivity.
Defined.

(** X20. What the four one- and two-field schemas accept.  [GetTextSchema]
    takes an object whose [selector] is absent or any string, the empty one
    included; [ClickSchema] and [EvaluateSchema] take an object whose
    [selector], respectively [script], is a string; [TypeSchema] takes an
    object whose [selector] and [text] are both strings.  Nothing else is
    accepted, and other fields of the object play no part. *)
Theorem string_schemas_accept_iff args :
  (forall a,
     GetTextSchema args = inr a <->
     exists props,
       args = JObject props /\
       (own_prop "selector" props = JUndefined /\ text_selector a = None \/
        exists sel, own_prop "selector" props = JString sel /\ text_selector a = Some sel)) /\
  (forall a,
     ClickSchema args = inr a <->
     exists props,
       args = JObject props /\ own_prop "selector" props = JString (click_selector a)) /\
  (forall a,
     TypeSchema args = inr a <->
     exists props,
       args = JObject props /\
       own_prop "selector" props = JString (type_selector a) /\
       own_prop "text" props = JString (type_text a)) /\
  (forall a,
     EvaluateSchema args = inr a <->
     exists props,
       args = JObject props /\ own_prop "script" props = JString (eval_script a)).
Proof.
  unfold GetTextSchema, ClickSchema, TypeSchema, EvaluateSchema,
    Zod.field, Zod.optional, Zod.string.
  repeat split.
  - destruct args; try discriminate. intros H. exists props. split; [reflexivity |].
    destruct (own_prop "selector" props); try discriminate H;
      inversion H; subst; cbn [text_selector]; eauto.
  - intros (props & -> & [[-> Ha] | (sel & -> & Ha)]);
      destruct a as [o]; cbn [text_selector] in Ha; subst o; reflexivity.
  - destruct args; try discriminate. intros H. exists props. split; [reflexivity |].
    destruct (own_prop "selector" props); try discriminate H.
    inversion H; subst; reflexivity.
  - intros (props & -> & ->). destruct a; reflexivity.
  - destruct args; try discriminate. intros H. exists props. split; [reflexivity |].
    destruct (own_prop "selector" props); destruct (own_prop "text" props);
      try discriminate H.
    inversion H; subst; split; reflexivity.
  - intros (props & -> & -> & ->). destruct a; reflexivity.
  - destruct args; try discriminate. intros H. exists props. split; [reflexivity |].
    destruct (own_prop "script" props); try discriminate H.
    inversion H; subst; reflexivity.
  - intros (props & -> & ->). destruct a; reflexivity.
Qed.
